(** * Assistant bot: contact directory with validated fields

    A shallow embedding of [1.py]: the field classes ([Field], [Name],
    [Phone], [Birthday]), [Record], [AddressBook] with its weekly birthday
    query, and the bot functions wrapped by [input_error].

    Python values are modelled as follows.
    - [str] is a list of Unicode code points ([pystr]); [len] is the length
      of that list.
    - [dict] (and [UserDict], [defaultdict]) is an association list in
      insertion order, looked up by first match.
    - exceptions are the [Raise] branch of [result]; the bot functions,
      which mutate the address book, live in a state-and-exception monad.
    - [datetime.date] is a record of year, month and day with the
      arithmetic of the [datetime] module written out. *)

From Stdlib Require Import ZArith List String Ascii Bool Lia.
From Stdlib Require Import Permutation.
Import ListNotations.
Open Scope Z_scope.

(* ================================================================== *)
(** ** Python strings *)

Module PyStr.

Definition pystr := list Z.

(** A string literal of the source, as code points. *)
Definition lit (s : string) : pystr :=
  map (fun a => Z.of_N (N_of_ascii a)) (list_ascii_of_string s).

Fixpoint str_eqb (a b : pystr) : bool :=
  match a, b with
  | [], [] => true
  | x :: a', y :: b' => (x =? y) && str_eqb a' b'
  | _, _ => false
  end.

Definition len (s : pystr) : Z := Z.of_nat (List.length s).

Definition in_ranges (c : Z) (table : list (Z * Z)) : bool :=
  existsb (fun r => (fst r <=? c) && (c <=? snd r)) table.

(** Code points with Numeric_Type Digit or Decimal: the characters for
    which [str.isdigit] holds (Unicode 14 tables of CPython 3.11). *)
Definition digit_table : list (Z * Z) :=
  [(48, 57); (178, 179); (185, 185); (1632, 1641); (1776, 1785);
   (1984, 1993); (2406, 2415); (2534, 2543); (2662, 2671); (2790, 2799);
   (2918, 2927); (3046, 3055); (3174, 3183); (3302, 3311); (3430, 3439);
   (3558, 3567); (3664, 3673); (3792, 3801); (3872, 3881); (4160, 4169);
   (4240, 4249); (4969, 4977); (6112, 6121); (6160, 6169); (6470, 6479);
   (6608, 6618); (6784, 6793); (6800, 6809); (6992, 7001); (7088, 7097);
   (7232, 7241); (7248, 7257); (8304, 8304); (8308, 8313); (8320, 8329);
   (9312, 9320); (9332, 9340); (9352, 9360); (9450, 9450); (9461, 9469);
   (9471, 9471); (10102, 10110); (10112, 10120); (10122, 10130);
   (42528, 42537); (43216, 43225); (43264, 43273); (43472, 43481);
   (43504, 43513); (43600, 43609); (44016, 44025); (65296, 65305);
   (66720, 66729); (68160, 68163); (68912, 68921); (69216, 69224);
   (69714, 69722); (69734, 69743); (69872, 69881); (69942, 69951);
   (70096, 70105); (70384, 70393); (70736, 70745); (70864, 70873);
   (71248, 71257); (71360, 71369); (71472, 71481); (71904, 71913);
   (72016, 72025); (72784, 72793); (73040, 73049); (73120, 73129);
   (92768, 92777); (92864, 92873); (93008, 93017); (120782, 120831);
   (123200, 123209); (123632, 123641); (125264, 125273); (127232, 127242);
   (130032, 130041)].

(** Code points of category Nd: what [\d] matches in a [str] pattern and
    what [int] reads as a digit.  Every block starts at a digit zero and
    runs through whole decades, so the value is the offset modulo 10. *)
Definition decimal_table : list (Z * Z) :=
  [(48, 57); (1632, 1641); (1776, 1785); (1984, 1993); (2406, 2415);
   (2534, 2543); (2662, 2671); (2790, 2799); (2918, 2927); (3046, 3055);
   (3174, 3183); (3302, 3311); (3430, 3439); (3558, 3567); (3664, 3673);
   (3792, 3801); (3872, 3881); (4160, 4169); (4240, 4249); (6112, 6121);
   (6160, 6169); (6470, 6479); (6608, 6617); (6784, 6793); (6800, 6809);
   (6992, 7001); (7088, 7097); (7232, 7241); (7248, 7257); (42528, 42537);
   (43216, 43225); (43264, 43273); (43472, 43481); (43504, 43513);
   (43600, 43609); (44016, 44025); (65296, 65305); (66720, 66729);
   (68912, 68921); (69734, 69743); (69872, 69881); (69942, 69951);
   (70096, 70105); (70384, 70393); (70736, 70745); (70864, 70873);
   (71248, 71257); (71360, 71369); (71472, 71481); (71904, 71913);
   (72016, 72025); (72784, 72793); (73040, 73049); (73120, 73129);
   (92768, 92777); (92864, 92873); (93008, 93017); (120782, 120831);
   (123200, 123209); (123632, 123641); (125264, 125273); (130032, 130041)].

Definition isdigit_char (c : Z) : bool := in_ranges c digit_table.
Definition isdecimal_char (c : Z) : bool := in_ranges c decimal_table.

Definition decimal_value (c : Z) : option Z :=
  match find (fun r => (fst r <=? c) && (c <=? snd r)) decimal_table with
  | Some r => Some ((c - fst r) mod 10)
  | None => None
  end.

(** [str.isdigit]: at least one character, and all of them digits. *)
Definition isdigit (s : pystr) : bool :=
  match s with
  | [] => false
  | _ => forallb isdigit_char s
  end.

(** Characters [str.isspace] accepts; [int] strips them at both ends. *)
Definition isspace_char (c : Z) : bool :=
  in_ranges c [(9, 13); (28, 32); (133, 133); (160, 160); (5760, 5760);
               (8192, 8202); (8232, 8233); (8239, 8239); (8287, 8287);
               (12288, 12288)].

Definition is_ascii_digit (c : Z) : bool := (48 <=? c) && (c <=? 57).

(** [sep.join(parts)]. *)
Fixpoint join (sep : pystr) (parts : list pystr) : pystr :=
  match parts with
  | [] => []
  | [p] => p
  | p :: rest => p ++ sep ++ join sep rest
  end.

(** Decimal rendering of a non-negative integer, as [str(n)] and the
    [%d] conversions produce it. *)
Fixpoint digits_fuel (fuel : nat) (n : Z) (acc : pystr) : pystr :=
  match fuel with
  | O => acc
  | S fuel' =>
      let acc' := (48 + n mod 10) :: acc in
      if n / 10 =? 0 then acc' else digits_fuel fuel' (n / 10) acc'
  end.

Definition str_of_int (n : Z) : pystr :=
  digits_fuel (S (Z.to_nat (Z.log2 n))) n [].

(** [repr] of a string: the quote is a double quote only when the text
    holds a single quote and no double quote; backslash, the chosen quote,
    tab, newline and carriage return are escaped.  Exact on printable
    text, which is all the program ever hands to it. *)
Definition repr_quote (s : pystr) : Z :=
  if existsb (Z.eqb 39) s && negb (existsb (Z.eqb 34) s) then 34 else 39.

Definition repr_char (q c : Z) : pystr :=
  if (c =? 92) || (c =? q) then [92; c]
  else if c =? 9 then [92; 116]
  else if c =? 10 then [92; 110]
  else if c =? 13 then [92; 114]
  else [c].

Definition repr (s : pystr) : pystr :=
  let q := repr_quote s in
  q :: flat_map (repr_char q) s ++ [q].

End PyStr.
Export PyStr.

(* ================================================================== *)
(** ** Exceptions *)

(** The exception classes of the program.  [ValueError], [IndexError]
    and [KeyError] are the classes [input_error] catches; [AttributeError]
    stands for every class outside that tuple. *)
Inductive exn : Type :=
| ValueError (msg : pystr)
| IndexError (msg : pystr)
| KeyError (arg : pystr)
| AttributeError (msg : pystr).

(** [str(e)].  A [KeyError] with one argument prints the [repr] of that
    argument; the other classes print the argument itself. *)
Definition str_exn (e : exn) : pystr :=
  match e with
  | ValueError msg => msg
  | IndexError msg => msg
  | KeyError arg => repr arg
  | AttributeError msg => msg
  end.

Inductive result (A : Type) : Type :=
| Ok (a : A)
| Raise (e : exn).
Arguments Ok {A} a.
Arguments Raise {A} e.

Definition rbind {A B} (r : result A) (f : A -> result B) : result B :=
  match r with
  | Ok a => f a
  | Raise e => Raise e
  end.

Declare Scope result_scope.
Delimit Scope result_scope with result.
Notation "x <- r ;; k" := (rbind r (fun x => k))
  (at level 61, r at next level, right associativity) : result_scope.
Open Scope result_scope.

(* ================================================================== *)
(** ** Calendar dates ([datetime.date]) *)

Module PyDate.

Record date : Type := mkdate { year : Z; month : Z; day : Z }.

Definition MINYEAR : Z := 1.
Definition MAXYEAR : Z := 9999.

Definition is_leap (y : Z) : bool :=
  (y mod 4 =? 0) && (negb (y mod 100 =? 0) || (y mod 400 =? 0)).

Definition days_in_month (y m : Z) : Z :=
  match m with
  | 1 => 31 | 2 => if is_leap y then 29 else 28 | 3 => 31 | 4 => 30
  | 5 => 31 | 6 => 30 | 7 => 31 | 8 => 31 | 9 => 30 | 10 => 31 | 11 => 30
  | 12 => 31
  | _ => 0
  end.

(** Number of days before January 1st of year [y]. *)
Definition days_before_year (y : Z) : Z :=
  let y' := y - 1 in
  y' * 365 + y' / 4 - y' / 100 + y' / 400.

(** Number of days in year [y] before the first day of month [m]. *)
Definition days_before_month (y m : Z) : Z :=
  match m with
  | 1 => 0 | 2 => 31 | 3 => 59 | 4 => 90 | 5 => 120 | 6 => 151 | 7 => 181
  | 8 => 212 | 9 => 243 | 10 => 273 | 11 => 304 | 12 => 334
  | _ => 0
  end + (if (2 <? m) && is_leap y then 1 else 0).

Definition ymd2ord (y m d : Z) : Z :=
  days_before_year y + days_before_month y m + d.

(** The range checks every date passes on construction. *)
Definition valid_ymd (y m d : Z) : bool :=
  (MINYEAR <=? y) && (y <=? MAXYEAR) && (1 <=? m) && (m <=? 12)
  && (1 <=? d) && (d <=? days_in_month y m).

Definition valid_date (dt : date) : bool :=
  valid_ymd (year dt) (month dt) (day dt).

(** [date(y, m, d)], with the error texts of the C implementation. *)
Definition date_new (y m d : Z) : result date :=
  if negb ((MINYEAR <=? y) && (y <=? MAXYEAR)) then
    Raise (ValueError (lit "year " ++ (if y <? 0 then lit "-" else [])
                       ++ str_of_int (Z.abs y) ++ lit " is out of range"))
  else if negb ((1 <=? m) && (m <=? 12)) then
    Raise (ValueError (lit "month must be in 1..12"))
  else if negb ((1 <=? d) && (d <=? days_in_month y m)) then
    Raise (ValueError (lit "day is out of range for month"))
  else Ok (mkdate y m d).

(** [dt.replace(year=y)]. *)
Definition replace_year (dt : date) (y : Z) : result date :=
  date_new y (month dt) (day dt).

Definition toordinal (dt : date) : Z :=
  ymd2ord (year dt) (month dt) (day dt).

(** [dt.weekday()]: Monday is 0, Sunday is 6. *)
Definition weekday (dt : date) : Z := (toordinal dt + 6) mod 7.

(** [a < b]: year, month and day compared in that order. *)
Definition date_lt (a b : date) : bool :=
  (year a <? year b)
  || ((year a =? year b)
      && ((month a <? month b)
          || ((month a =? month b) && (day a <? day b)))).

(** [(a - b).days]. *)
Definition sub_days (a b : date) : Z := toordinal a - toordinal b.

(** [dt.strftime("%A")] in the C locale, which the program never
    changes. *)
Definition day_name (wd : Z) : pystr :=
  match wd with
  | 0 => lit "Monday" | 1 => lit "Tuesday" | 2 => lit "Wednesday"
  | 3 => lit "Thursday" | 4 => lit "Friday" | 5 => lit "Saturday"
  | _ => lit "Sunday"
  end.

Definition strftime_A (dt : date) : pystr := day_name (weekday dt).

(** Zero-padded decimal fields of width two and four. *)
Definition pad2 (n : Z) : pystr := [48 + n / 10; 48 + n mod 10].

Definition pad4 (n : Z) : pystr :=
  [48 + n / 1000; 48 + (n / 100) mod 10; 48 + (n / 10) mod 10; 48 + n mod 10].

(** [dt.strftime("%d.%m.%Y")].  Day and month are always two digits.  The
    year is four digits from 1000 on; below 1000 the C library decides
    whether it is zero-padded, and [pad_year] records that choice. *)
Definition strftime_dmY (pad_year : bool) (dt : date) : pystr :=
  pad2 (day dt) ++ [46] ++ pad2 (month dt) ++ [46]
  ++ (if pad_year then pad4 (year dt) else str_of_int (year dt)).

End PyDate.
Export PyDate.

(* ================================================================== *)
(** ** [datetime.strptime(s, "%d.%m.%Y")] *)

Module StrpTime.

(** One position of the compiled pattern: a literal, a range such as
    [[1-9]], or [\d]. *)
Inductive cclass : Type :=
| Chr (c : Z)
| Rng (lo hi : Z)
| Dec.

Definition cmatch (cl : cclass) (c : Z) : bool :=
  match cl with
  | Chr x => c =? x
  | Rng lo hi => (lo <=? c) && (c <=? hi)
  | Dec => isdecimal_char c
  end.

(** Matches the classes of one alternative at the head of [s]; returns
    the text consumed and what is left. *)
Fixpoint match_seq (p : list cclass) (s : pystr) : option (pystr * pystr) :=
  match p, s with
  | [], _ => Some ([], s)
  | cl :: p', c :: s' =>
      if cmatch cl c then
        match match_seq p' s' with
        | Some (txt, rest) => Some (c :: txt, rest)
        | None => None
        end
      else None
  | _ :: _, [] => None
  end.

Inductive directive : Type := dir_d | dir_m | dir_Y.

Inductive item : Type :=
| Group (g : directive) (alts : list (list cclass))
| Literal (c : Z).

Definition found_dict := list (directive * pystr).

(** A named group: the alternatives are tried in order, and an
    alternative that matches is given up again when the rest of the
    pattern, [k], fails after it. *)
Fixpoint try_alts (g : directive) (alts : list (list cclass)) (s : pystr)
    (k : pystr -> option (found_dict * pystr)) : option (found_dict * pystr) :=
  match alts with
  | [] => None
  | alt :: alts' =>
      match match_seq alt s with
      | Some (txt, rest) =>
          match k rest with
          | Some (found, rest') => Some ((g, txt) :: found, rest')
          | None => try_alts g alts' s k
          end
      | None => try_alts g alts' s k
      end
  end.

(** [regex.match(s)]: the groups found and the text after the match. *)
Fixpoint rx_match (items : list item) (s : pystr)
    : option (found_dict * pystr) :=
  match items with
  | [] => Some ([], s)
  | Literal c :: items' =>
      match s with
      | x :: s' => if x =? c then rx_match items' s' else None
      | [] => None
      end
  | Group g alts :: items' => try_alts g alts s (rx_match items')
  end.

(** The groups [_strptime.TimeRE] has for [%d], [%m] and [%Y]:
    [3[0-1]|[1-2]\d|0[1-9]|[1-9]| [1-9]], [1[0-2]|0[1-9]|[1-9]] and
    [\d\d\d\d]. *)
Definition re_d : list (list cclass) :=
  [[Chr 51; Rng 48 49]; [Rng 49 50; Dec]; [Chr 48; Rng 49 57];
   [Rng 49 57]; [Chr 32; Rng 49 57]].

Definition re_m : list (list cclass) :=
  [[Chr 49; Rng 48 50]; [Chr 48; Rng 49 57]; [Rng 49 57]].

Definition re_Y : list (list cclass) := [[Dec; Dec; Dec; Dec]].

(** The pattern compiled from the format ["%d.%m.%Y"]. *)
Definition format_regex : list item :=
  [Group dir_d re_d; Literal 46; Group dir_m re_m; Literal 46;
   Group dir_Y re_Y].

Fixpoint lstrip (s : pystr) : pystr :=
  match s with
  | c :: s' => if isspace_char c then lstrip s' else s
  | [] => []
  end.

Definition strip (s : pystr) : pystr := rev (lstrip (rev (lstrip s))).

Fixpoint int_digits (s : pystr) (acc : Z) : option Z :=
  match s with
  | [] => Some acc
  | c :: s' =>
      match decimal_value c with
      | Some v => int_digits s' (acc * 10 + v)
      | None => None
      end
  end.

(** [int(s)] on text a group of the pattern can hold: surrounding white
    space is dropped and what remains must be decimal digits.  (Signs and
    underscores, which no group captures, are not read.) *)
Definition py_int (s : pystr) : result Z :=
  let bad := Raise (ValueError
    (lit "invalid literal for int() with base 10: " ++ repr s)) in
  match strip s with
  | [] => bad
  | t => match int_digits t 0 with
         | Some n => Ok n
         | None => bad
         end
  end.

(** The loop over [found_dict]: [year] starts as [None], [month] and
    [day] as 1. *)
Fixpoint read_groups (found : found_dict) (ymd : option Z * Z * Z)
    : result (option Z * Z * Z) :=
  match found with
  | [] => Ok ymd
  | (g, txt) :: found' =>
      n <- py_int txt ;;
      let '(y, m, d) := ymd in
      read_groups found'
        match g with
        | dir_Y => (Some n, m, d)
        | dir_m => (y, n, d)
        | dir_d => (y, m, n)
        end
  end.

(** [datetime.strptime(s, "%d.%m.%Y")].  The time of day of the result is
    midnight and nothing reads it, so the result is kept as a date. *)
Definition strptime (s : pystr) : result date :=
  match rx_match format_regex s with
  | None =>
      Raise (ValueError (lit "time data " ++ repr s
                         ++ lit " does not match format '%d.%m.%Y'"))
  | Some (found, rest) =>
      match rest with
      | _ :: _ => Raise (ValueError (lit "unconverted data remains: " ++ rest))
      | [] =>
          ymd <- read_groups found (None, 1, 1) ;;
          let '(y, m, d) := ymd in
          date_new (match y with Some y' => y' | None => 1900 end) m d
      end
  end.

End StrpTime.
Export StrpTime.

(* ================================================================== *)
(** ** Dictionaries keyed by strings *)

Module PyDict.

Section Dict.
Context {V : Type}.

Definition dict := list (pystr * V).

(** [d.get(k)]. *)
Fixpoint dict_get (k : pystr) (d : dict) : option V :=
  match d with
  | [] => None
  | (k', v) :: d' => if str_eqb k k' then Some v else dict_get k d'
  end.

(** [k in d]. *)
Definition dict_contains (k : pystr) (d : dict) : bool :=
  match dict_get k d with
  | Some _ => true
  | None => false
  end.

(** [d[k] = v]: an existing key keeps its place, a new one goes last. *)
Fixpoint dict_set (k : pystr) (v : V) (d : dict) : dict :=
  match d with
  | [] => [(k, v)]
  | (k', v') :: d' =>
      if str_eqb k k' then (k', v) :: d' else (k', v') :: dict_set k v d'
  end.

(** [del d[k]] for a key that is present. *)
Fixpoint dict_del (k : pystr) (d : dict) : dict :=
  match d with
  | [] => []
  | (k', v') :: d' =>
      if str_eqb k k' then d' else (k', v') :: dict_del k d'
  end.

(** [d[k]]. *)
Definition getitem (k : pystr) (d : dict) : result V :=
  match dict_get k d with
  | Some v => Ok v
  | None => Raise (KeyError k)
  end.

Definition dict_keys (d : dict) : list pystr := map fst d.
Definition dict_values (d : dict) : list V := map snd d.
End Dict.
Arguments dict V : clear implicits.

End PyDict.
Export PyDict.

(* ================================================================== *)
(** ** Field classes *)

Record Field (T : Type) : Type := mkField { value : T }.
Arguments mkField {T} value.
Arguments value {T} f.

Definition Name := Field pystr.
Definition Phone := Field pystr.
Definition Birthday := Field date.

Definition Phone_validate (phone : pystr) : bool :=
  (len phone =? 10) && isdigit phone.

Definition Phone_new (phone : pystr) : result Phone :=
  if Phone_validate phone then Ok (mkField phone)
  else Raise (ValueError (lit "Invalid phone format")).

(** [Birthday.validate]: only a [ValueError] of [strptime] is turned into
    [False]. *)
Definition Birthday_validate (date : pystr) : result bool :=
  match strptime date with
  | Ok _ => Ok true
  | Raise (ValueError _) => Ok false
  | Raise e => Raise e
  end.

Definition Birthday_new (date : pystr) : result Birthday :=
  ok <- Birthday_validate date ;;
  if ok : bool then
    parsed_date <- strptime date ;;
    Ok (mkField parsed_date)
  else Raise (ValueError (lit "Invalid birthday format")).

(* ================================================================== *)
(** ** Record and AddressBook *)

Record Record_ : Type := mkRecord {
  name : Name;
  phones : list Phone;
  birthday : option Birthday
}.

Definition Record_new (nm : pystr) : Record_ :=
  {| name := mkField nm; phones := []; birthday := None |}.

Definition add_phone (phone : pystr) (self : Record_) : result Record_ :=
  p <- Phone_new phone ;;
  Ok {| name := name self; phones := phones self ++ [p];
        birthday := birthday self |}.

Definition add_birthday (date : pystr) (self : Record_) : result Record_ :=
  b <- Birthday_new date ;;
  Ok {| name := name self; phones := phones self; birthday := Some b |}.

Definition AddressBook := dict Record_.

Definition add_record (record : Record_) (self : AddressBook) : AddressBook :=
  dict_set (value (name record)) record self.

Definition find (nm : pystr) (self : AddressBook) : option Record_ :=
  dict_get nm self.

Definition delete (nm : pystr) (self : AddressBook) : AddressBook :=
  if dict_contains nm self then dict_del nm self else self.

(** The result of the weekly query: weekday name to names, in the order
    the weekdays were first met. *)
Definition groups := dict (list pystr).

(** [birthdays[weekday].append(name)] on a [defaultdict(list)]. *)
Definition append_to (weekday_key nm : pystr) (birthdays : groups) : groups :=
  match dict_get weekday_key birthdays with
  | Some names => dict_set weekday_key (names ++ [nm]) birthdays
  | None => dict_set weekday_key [nm] birthdays
  end.

(** One turn of the loop of [get_birthdays_per_week]. *)
Definition visit (today : date) (birthdays : groups) (record : Record_)
    : result groups :=
  match birthday record with
  | None => Ok birthdays
  | Some b =>
      let nm := value (name record) in
      let bday := value b in
      birthday_this_year <- replace_year bday (year today) ;;
      birthday_this_year <-
        (if date_lt birthday_this_year today
         then replace_year bday (year today + 1)
         else Ok birthday_this_year) ;;
      let delta_days := sub_days birthday_this_year today in
      if delta_days <? 7 then
        let weekday_num := weekday birthday_this_year in
        let wd := if (weekday_num =? 5) || (weekday_num =? 6)
                  then lit "Monday"
                  else strftime_A birthday_this_year in
        Ok (append_to wd nm birthdays)
      else Ok birthdays
  end.

Fixpoint for_records (today : date) (records : list Record_)
    (birthdays : groups) : result groups :=
  match records with
  | [] => Ok birthdays
  | record :: rest =>
      birthdays' <- visit today birthdays record ;;
      for_records today rest birthdays'
  end.

(** [today] is the value of [datetime.today().date()]. *)
Definition get_birthdays_per_week (today : date) (self : AddressBook)
    : result groups :=
  for_records today (dict_values self) [].

(* ================================================================== *)
(** ** Bot functions *)

(** A bot function reads and updates the address book and may raise; an
    update made before a [raise] stays. *)
Definition M (A : Type) : Type := AddressBook -> result A * AddressBook.

Definition ret {A} (a : A) : M A := fun book => (Ok a, book).
Definition raise {A} (e : exn) : M A := fun book => (Raise e, book).
Definition lift {A} (r : result A) : M A := fun book => (r, book).
Definition get_book : M AddressBook := fun book => (Ok book, book).
Definition put_book (book' : AddressBook) : M unit := fun _ => (Ok tt, book').

Definition bind {A B} (c : M A) (f : A -> M B) : M B :=
  fun book =>
    match c book with
    | (Ok a, book') => f a book'
    | (Raise e, book') => (Raise e, book')
    end.

Notation "x <~ c ;; k" := (bind c (fun x => k))
  (at level 61, c at next level, right associativity).
Notation "c ;;; k" := (bind c (fun _ => k))
  (at level 61, right associativity).

Definition caught (e : exn) : bool :=
  match e with
  | ValueError _ | IndexError _ | KeyError _ => true
  | AttributeError _ => false
  end.

(** The decorator: [except (ValueError, IndexError, KeyError) as e:
    return str(e)]. *)
Definition input_error (func : M pystr) : M pystr :=
  fun book =>
    match func book with
    | (Raise e, book') =>
        if caught e then (Ok (str_exn e), book') else (Raise e, book')
    | r => r
    end.

(** [a, b = args]. *)
Definition unpack2 (args : list pystr) : result (pystr * pystr) :=
  match args with
  | [a; b] => Ok (a, b)
  | [] | [_] =>
      Raise (ValueError (lit "not enough values to unpack (expected 2, got "
                         ++ str_of_int (Z.of_nat (List.length args))
                         ++ lit ")"))
  | _ => Raise (ValueError (lit "too many values to unpack (expected 2)"))
  end.

(** [xs[0]]. *)
Definition item0 {A} (xs : list A) : result A :=
  match xs with
  | x :: _ => Ok x
  | [] => Raise (IndexError (lit "list index out of range"))
  end.

Definition add_contact_body (args : list pystr) : M pystr :=
  np <~ lift (unpack2 args) ;;
  let '(nm, phone) := np in
  book <~ get_book ;;
  if negb (dict_contains nm book) then
    record <~ lift (add_phone phone (Record_new nm)) ;;
    put_book (add_record record book) ;;;
    ret (lit "Contact added.")
  else raise (KeyError (lit "Contact already exists.")).

Definition add_contact_safely (args : list pystr) : M pystr :=
  input_error (add_contact_body args).

(** [record.phones[0].value = phone]: the record is the object stored
    under [nm], so the book sees the new value there. *)
Definition change_contact_body (args : list pystr) : M pystr :=
  np <~ lift (unpack2 args) ;;
  let '(nm, phone) := np in
  book <~ get_book ;;
  if dict_contains nm book then
    record <~ lift (getitem nm book) ;;
    match phones record with
    | [] => raise (IndexError (lit "list index out of range"))
    | _ :: others =>
        put_book (dict_set nm
                    {| name := name record;
                       phones := mkField phone :: others;
                       birthday := birthday record |} book) ;;;
        ret (lit "Contact updated.")
    end
  else raise (KeyError (lit "Contact not found.")).

Definition change_contact_safely (args : list pystr) : M pystr :=
  input_error (change_contact_body args).

Definition get_phone_body (args : list pystr) : M pystr :=
  nm <~ lift (item0 args) ;;
  book <~ get_book ;;
  if dict_contains nm book then
    record <~ lift (getitem nm book) ;;
    p <~ lift (item0 (phones record)) ;;
    ret (value p)
  else raise (KeyError (lit "Contact not found.")).

Definition get_phone_safely (args : list pystr) : M pystr :=
  input_error (get_phone_body args).

Definition add_birthday_body (args : list pystr) : M pystr :=
  nd <~ lift (unpack2 args) ;;
  let '(nm, date) := nd in
  book <~ get_book ;;
  if dict_contains nm book then
    record <~ lift (getitem nm book) ;;
    record' <~ lift (add_birthday date record) ;;
    put_book (dict_set nm record' book) ;;;
    ret (lit "Birthday added.")
  else raise (KeyError (lit "Contact not found.")).

Definition add_birthday_safely (args : list pystr) : M pystr :=
  input_error (add_birthday_body args).

Definition has_birthday (nm : pystr) (book : AddressBook) : bool :=
  match dict_get nm book with
  | Some record =>
      match birthday record with Some _ => true | None => false end
  | None => false
  end.

Definition show_birthday_body (pad_year : bool) (args : list pystr)
    : M pystr :=
  nm <~ lift (item0 args) ;;
  book <~ get_book ;;
  if has_birthday nm book then
    record <~ lift (getitem nm book) ;;
    match birthday record with
    | Some b => ret (strftime_dmY pad_year (value b))
    | None => raise (AttributeError (lit "'NoneType' object has no attribute 'value'"))
    end
  else raise (KeyError (lit "Contact or birthday not found.")).

Definition show_birthday_safely (pad_year : bool) (args : list pystr)
    : M pystr :=
  input_error (show_birthday_body pad_year args).

(** The lines of [show_all_contacts], one per item of the book. *)
Fixpoint contact_lines (items : list (pystr * Record_))
    : result (list pystr) :=
  match items with
  | [] => Ok []
  | (nm, record) :: rest =>
      p <- item0 (phones record) ;;
      lines <- contact_lines rest ;;
      Ok ((nm ++ lit ": " ++ value p) :: lines)
  end.

Definition show_all_contacts (book : AddressBook) : result pystr :=
  match book with
  | [] => Ok (lit "No contacts stored.")
  | _ => lines <- contact_lines book ;; Ok (join [10] lines)
  end.

Definition show_birthdays_next_week (today : date) (book : AddressBook)
    : result pystr :=
  birthdays <- get_birthdays_per_week today book ;;
  match birthdays with
  | [] => Ok (lit "No birthdays next week.")
  | _ =>
      Ok (join [10]
            (map (fun wn => fst wn ++ lit ": " ++ join (lit ", ") (snd wn))
                 birthdays))
  end.

(** The commands of [main] that reach the address book, with what each
    one reads from outside the book. *)
Inductive command : Type :=
| cmd_add (args : list pystr)
| cmd_change (args : list pystr)
| cmd_phone (args : list pystr)
| cmd_all
| cmd_add_birthday (args : list pystr)
| cmd_show_birthday (args : list pystr)
| cmd_birthdays (today : date).

Definition run_command (pad_year : bool) (c : command) : M pystr :=
  match c with
  | cmd_add args => add_contact_safely args
  | cmd_change args => change_contact_safely args
  | cmd_phone args => get_phone_safely args
  | cmd_all => fun book => (show_all_contacts book, book)
  | cmd_add_birthday args => add_birthday_safely args
  | cmd_show_birthday args => show_birthday_safely pad_year args
  | cmd_birthdays today => fun book => (show_birthdays_next_week today book, book)
  end.

(** Address books [main] can hold: it starts empty and changes only
    through commands. *)
Inductive reachable (pad_year : bool) : AddressBook -> Prop :=
| reach_empty : reachable pad_year []
| reach_command (c : command) (book : AddressBook) :
    reachable pad_year book ->
    reachable pad_year (snd (run_command pad_year c book)).

(** Calls on the address book itself, next to the commands. *)
Inductive call : Type :=
| call_add_record (record : Record_)
| call_find (nm : pystr)
| call_delete (nm : pystr)
| call_command (c : command).

Definition run_call (pad_year : bool) (c : call) (book : AddressBook)
    : AddressBook :=
  match c with
  | call_add_record record => add_record record book
  | call_find _ => book
  | call_delete nm => delete nm book
  | call_command c' => snd (run_command pad_year c' book)
  end.

Inductive reachable_by_calls (pad_year : bool) : AddressBook -> Prop :=
| calls_empty : reachable_by_calls pad_year []
| calls_step (c : call) (book : AddressBook) :
    reachable_by_calls pad_year book ->
    reachable_by_calls pad_year (run_call pad_year c book).

(* ================================================================== *)
(** ** The command loop *)

(** [s.split()]: the maximal runs of characters that are not white
    space, in order.  [word] is the run being read. *)
Fixpoint split_from (s word : pystr) : list pystr :=
  match s with
  | [] => match word with [] => [] | _ => [word] end
  | c :: s' =>
      if isspace_char c then
        match word with
        | [] => split_from s' []
        | _ => word :: split_from s' []
        end
      else split_from s' (word ++ [c])
  end.

Definition split (s : pystr) : list pystr := split_from s [].

(** [cmd, *args = user_input.split()] and [cmd.lower()].  [lower] is
    [str.lower], whose Unicode tables are not part of the program. *)
Definition read_customer_input (lower : pystr -> pystr) (user_input : pystr)
    : result (pystr * list pystr) :=
  match split user_input with
  | [] =>
      Raise (ValueError
        (lit "not enough values to unpack (expected at least 1, got 0)"))
  | cmd :: args => Ok (lower cmd, args)
  end.

(** What the program writes: the prompt of [input] and the lines of
    [print]. *)
Inductive event : Type :=
| Prompt (text : pystr)
| Print (text : pystr).

(** One turn of the loop of [main] after [input] returned [user_input]:
    the text printed and whether the loop ends.  [today] is the date the
    clock shows during the turn. *)
Definition main_turn (lower : pystr -> pystr) (pad_year : bool)
    (today : date) (user_input : pystr) : M (pystr * bool) :=
  ca <~ lift (read_customer_input lower user_input) ;;
  let '(command, args) := ca in
  if str_eqb command (lit "close") || str_eqb command (lit "exit") then
    ret (lit "Good bye!", true)
  else if str_eqb command (lit "hello") then
    ret (lit "How can I help you?", false)
  else if str_eqb command (lit "add") then
    out <~ add_contact_safely args ;; ret (out, false)
  else if str_eqb command (lit "change") then
    out <~ change_contact_safely args ;; ret (out, false)
  else if str_eqb command (lit "phone") then
    out <~ get_phone_safely args ;; ret (out, false)
  else if str_eqb command (lit "all") then
    book <~ get_book ;;
    out <~ lift (show_all_contacts book) ;; ret (out, false)
  else if str_eqb command (lit "add-birthday") then
    out <~ add_birthday_safely args ;; ret (out, false)
  else if str_eqb command (lit "show-birthday") then
    out <~ show_birthday_safely pad_year args ;; ret (out, false)
  else if str_eqb command (lit "birthdays") then
    book <~ get_book ;;
    out <~ lift (show_birthdays_next_week today book) ;; ret (out, false)
  else ret (lit "Invalid command.", false).

(** How a run of [main] ends: by "close" or "exit", by an exception of
    a turn that nothing catches, or by the [EOFError] that [input] raises
    when no line is left, which nothing catches either. *)
Inductive ending : Type :=
| Exited
| Crashed (e : exn)
| EOFError_at_input.

(** The loop of [main] on the lines [input] will return, each with the
    date of its turn; [trace] holds the events so far. *)
Fixpoint main_loop (lower : pystr -> pystr) (pad_year : bool)
    (inputs : list (date * pystr)) (book : AddressBook) (trace : list event)
    : list event * ending * AddressBook :=
  let trace := trace ++ [Prompt (lit "Enter a command: ")] in
  match inputs with
  | [] => (trace, EOFError_at_input, book)
  | (today, user_input) :: rest =>
      match main_turn lower pad_year today user_input book with
      | (Raise e, book') => (trace, Crashed e, book')
      | (Ok (out, true), book') => (trace ++ [Print out], Exited, book')
      | (Ok (out, false), book') =>
          main_loop lower pad_year rest book' (trace ++ [Print out])
      end
  end.

Definition main (lower : pystr -> pystr) (pad_year : bool)
    (inputs : list (date * pystr)) : list event * ending * AddressBook :=
  main_loop lower pad_year inputs []
    [Print (lit "Welcome to the assistant bot!")].

(* ================================================================== *)
(** ** Vocabulary of the specification *)

(** The birthday's month and day in the year of [today]. *)
Definition this_year (today bday : date) : date :=
  mkdate (year today) (month bday) (day bday).

(** The next occurrence: moved to the following year only when the date
    in the current year lies strictly before [today]. *)
Definition next_occurrence (today bday : date) : date :=
  if date_lt (this_year today bday) today
  then mkdate (year today + 1) (month bday) (day bday)
  else this_year today bday.

Definition days_to_next (today bday : date) : Z :=
  toordinal (next_occurrence today bday) - toordinal today.

(** Both dates the loop builds for [bday] exist in the calendar. *)
Definition occurs (today bday : date) : bool :=
  valid_date (this_year today bday) && valid_date (next_occurrence today bday).

Definition record_occurs (today : date) (record : Record_) : bool :=
  match birthday record with
  | Some b => occurs today (value b)
  | None => true
  end.

(** The label of a date: weekend days are reported on Monday. *)
Definition group_key (dt : date) : pystr :=
  if (weekday dt =? 5) || (weekday dt =? 6) then lit "Monday"
  else day_name (weekday dt).

(** What one record adds to the grouping: its label and its name. *)
Definition entry_of (today : date) (record : Record_)
    : option (pystr * pystr) :=
  match birthday record with
  | None => None
  | Some b =>
      let nxt := next_occurrence today (value b) in
      if sub_days nxt today <? 7
      then Some (group_key nxt, value (name record))
      else None
  end.

(** [nm in g[wd]]. *)
Definition in_group (wd nm : pystr) (g : groups) : Prop :=
  exists names, dict_get wd g = Some names /\ In nm names.

Definition listed (nm : pystr) (g : groups) : Prop :=
  exists wd, in_group wd nm g.

Definition grouped_only_under (wd nm : pystr) (g : groups) : Prop :=
  in_group wd nm g /\ forall wd', in_group wd' nm g -> wd' = wd.

Definition record_names (book : AddressBook) : list pystr :=
  map (fun record => value (name record)) (dict_values book).

(** Every record is stored under its own name. *)
Definition keyed_by_name (book : AddressBook) : Prop :=
  forall k record, In (k, record) book -> value (name record) = k.

Definition all_have_phone (book : AddressBook) : Prop :=
  forall k record, In (k, record) book -> phones record <> [].

(** Ten characters, two ASCII digits, a dot, two ASCII digits, a dot and
    four ASCII digits. *)
Definition strict_form (s : pystr) : bool :=
  match s with
  | [a; b; p; c; d; q; e; f; g; h] =>
      is_ascii_digit a && is_ascii_digit b && (p =? 46)
      && is_ascii_digit c && is_ascii_digit d && (q =? 46)
      && is_ascii_digit e && is_ascii_digit f && is_ascii_digit g
      && is_ascii_digit h
  | _ => false
  end.

(** The entries of the records of a list, in order. *)
Definition entries_of (today : date) (records : list Record_)
    : list (pystr * pystr) :=
  flat_map (fun record =>
              match entry_of today record with
              | Some e => [e]
              | None => []
              end) records.

Definition entries (today : date) (book : AddressBook)
    : list (pystr * pystr) :=
  entries_of today (dict_values book).

(** The names under a label; none when the label is not a key. *)
Definition group_of (wd : pystr) (g : groups) : list pystr :=
  match dict_get wd g with
  | Some names => names
  | None => []
  end.

(** The labels of [ks] not in [seen], each kept where it first occurs. *)
Fixpoint first_seen (seen ks : list pystr) : list pystr :=
  match ks with
  | [] => []
  | k :: ks' =>
      if existsb (str_eqb k) seen then first_seen seen ks'
      else k :: first_seen (k :: seen) ks'
  end.

Definition working_days : list pystr :=
  [lit "Monday"; lit "Tuesday"; lit "Wednesday"; lit "Thursday";
   lit "Friday"].

(** All the names of a grouping, label after label. *)
Definition all_names (g : groups) : list pystr :=
  List.concat (map snd g).

(** The date of the birthday in the current year lies before today. *)
Definition passed (today bday : date) : bool :=
  date_lt (this_year today bday) today.

Definition birthdays_valid (book : AddressBook) : Prop :=
  forall record b,
    In record (dict_values book) -> birthday record = Some b ->
    valid_date (value b) = true.

(** The birthdays the loop cannot place: 29 February when the current
    year is not a leap year or the date has passed, and any date that
    has passed in the year 9999. *)
Definition unplaceable (today bday : date) : bool :=
  ((month bday =? 2) && (day bday =? 29)
   && (negb (is_leap (year today)) || passed today bday))
  || ((year today =? MAXYEAR) && passed today bday).

(** No character, or white space only. *)
Definition is_blank (s : pystr) : bool := forallb isspace_char s.

(** A word as [split] returns them: not empty and free of white space. *)
Definition is_word (s : pystr) : bool :=
  match s with
  | [] => false
  | _ => forallb (fun c => negb (isspace_char c)) s
  end.

(** [str.lower] on ASCII text. *)
Definition ascii_lower (s : pystr) : pystr :=
  map (fun c => if (65 <=? c) && (c <=? 90) then c + 32 else c) s.

(** The phones of [ps] added one after the other. *)
Fixpoint add_phones (ps : list pystr) (record : Record_) : result Record_ :=
  match ps with
  | [] => Ok record
  | p :: ps' => record' <- add_phone p record ;; add_phones ps' record'
  end.

(** The texts [Birthday] takes, field by field.  A day is 30 or 31, a
    1 or 2 followed by any decimal digit, a 0 followed by 1 to 9, a lone
    1 to 9, or a space followed by 1 to 9; a month is 10 to 12, a 0
    followed by 1 to 9, or a lone 1 to 9; a year is four decimal digits.
    Only the second character of a day and the characters of a year may
    be decimal digits outside ASCII. *)
Definition in_range (lo hi c : Z) : bool := (lo <=? c) && (c <=? hi).

Definition day_field (D : pystr) : bool :=
  match D with
  | [a] => in_range 49 57 a
  | [a; b] =>
      ((a =? 51) && in_range 48 49 b)
      || (in_range 49 50 a && isdecimal_char b)
      || ((a =? 48) && in_range 49 57 b)
      || ((a =? 32) && in_range 49 57 b)
  | _ => false
  end.

Definition month_field (Mo : pystr) : bool :=
  match Mo with
  | [a] => in_range 49 57 a
  | [a; b] =>
      ((a =? 49) && in_range 48 50 b) || ((a =? 48) && in_range 49 57 b)
  | _ => false
  end.

Definition year_field (Y : pystr) : bool :=
  match Y with
  | [a; b; c; d] =>
      isdecimal_char a && isdecimal_char b && isdecimal_char c
      && isdecimal_char d
  | _ => false
  end.

(** The number a field denotes: its decimal digits read from the left,
    a space counting for nothing. *)
Definition digits_value (txt : pystr) : Z :=
  fold_left (fun acc c => match decimal_value c with
                          | Some v => acc * 10 + v
                          | None => acc
                          end) txt 0.

(** [s] is day, dot, month, dot, year, and these denote the valid
    calendar date [dt]. *)
Definition birthday_text (s : pystr) (dt : date) : Prop :=
  exists D Mo Y,
    s = D ++ [46] ++ Mo ++ [46] ++ Y
    /\ day_field D = true /\ month_field Mo = true /\ year_field Y = true
    /\ dt = mkdate (digits_value Y) (digits_value Mo) (digits_value D)
    /\ valid_date dt = true.

(** [s] holds the words [ws] and nothing else: white space, possibly
    none, before the first word and after the last, and at least one
    white-space character between two words. *)
Inductive reads_as : pystr -> list pystr -> Prop :=
| reads_blank (s : pystr) : is_blank s = true -> reads_as s []
| reads_word (pre w rest : pystr) (ws : list pystr) :
    is_blank pre = true -> is_word w = true ->
    match rest with [] => True | c :: _ => isspace_char c = true end ->
    reads_as rest ws ->
    reads_as (pre ++ w ++ rest) (w :: ws).

(** Concrete inputs used below. *)
Definition arabic_indic_phone : pystr :=
  [1633; 1634; 1635; 1636; 1637; 1638; 1639; 1640; 1641; 1632].

Definition bob_book : AddressBook :=
  snd (add_contact_safely [lit "Bob"; lit "1234567890"] []).

Definition bob_leap_book : AddressBook :=
  snd (add_birthday_safely [lit "Bob"; lit "29.02.2020"] bob_book).

Definition week_book : AddressBook :=
  snd (add_birthday_safely [lit "Eve"; lit "08.11.1985"]
    (snd (add_contact_safely [lit "Eve"; lit "5550000002"]
      (snd (add_birthday_safely [lit "Ann"; lit "06.11.1990"]
        (snd (add_contact_safely [lit "Ann"; lit "5550000001"] []))))))).

Definition eve_record : Record_ :=
  {| name := mkField (lit "Eve");
     phones := [mkField (lit "5550000002")];
     birthday := Some (mkField (mkdate 1985 11 8)) |}.

Definition bob_leap_record : Record_ :=
  {| name := mkField (lit "Bob");
     phones := [mkField (lit "1234567890")];
     birthday := Some (mkField (mkdate 2020 2 29)) |}.

Definition bob_record : Record_ :=
  {| name := mkField (lit "Bob");
     phones := [mkField (lit "1234567890")];
     birthday := None |}.

Definition week_groups : groups :=
  [(lit "Friday", [lit "Ann"]); (lit "Monday", [lit "Eve"])].

Definition march_first : date := mkdate 2023 3 1.

Definition crash_inputs : list (date * pystr) :=
  [(march_first, lit "add Bob 1234567890");
   (march_first, lit "add-birthday Bob 29.02.2020");
   (march_first, lit "birthdays");
   (march_first, lit "all")].

(* ================================================================== *)
(** * Properties *)

(** ** Strings and dictionaries *)

Lemma str_eqb_eq (a b : pystr) : str_eqb a b = true <-> a = b.
Proof.
  revert b; induction a as [|x a IH]; intros [|y b]; simpl;
    try (split; [discriminate | congruence]).
  - split; reflexivity.
  - rewrite andb_true_iff, Z.eqb_eq, IH. split.
    + intros [-> ->]; reflexivity.
    + intros E; injection E; auto.
Qed.

Lemma str_eqb_refl (a : pystr) : str_eqb a a = true.
Proof. apply str_eqb_eq; reflexivity. Qed.

Lemma str_eqb_neq (a b : pystr) : str_eqb a b = false <-> a <> b.
Proof.
  rewrite <- str_eqb_eq. destruct (str_eqb a b); split; congruence.
Qed.

Section DictFacts.
Context {V : Type}.
Implicit Types (d : dict V) (k : pystr) (v : V).

Lemma dict_get_set k k' v d :
  dict_get k (dict_set k' v d)
  = if str_eqb k k' then Some v else dict_get k d.
Proof.
  induction d as [|[k0 v0] d IH]; simpl.
  - reflexivity.
  - destruct (str_eqb k' k0) eqn:E'; simpl.
    + apply str_eqb_eq in E'; subst k0.
      destruct (str_eqb k k'); reflexivity.
    + destruct (str_eqb k k0) eqn:E0.
      * apply str_eqb_eq in E0; subst k0.
        destruct (str_eqb k k') eqn:E; [|reflexivity].
        apply str_eqb_eq in E; subst k'.
        rewrite str_eqb_refl in E'; discriminate.
      * exact IH.
Qed.

Lemma dict_get_In k v d : dict_get k d = Some v -> In (k, v) d.
Proof.
  induction d as [|[k0 v0] d IH]; simpl; [discriminate|].
  destruct (str_eqb k k0) eqn:E.
  - apply str_eqb_eq in E; subst k0. intros [= ->]; auto.
  - auto.
Qed.

Lemma In_dict_set k v k' v' d :
  In (k, v) (dict_set k' v' d) -> In (k, v) d \/ (k = k' /\ v = v').
Proof.
  induction d as [|[k0 v0] d IH]; simpl.
  - intros [[= <- <-]|[]]; auto.
  - destruct (str_eqb k' k0) eqn:E; simpl.
    + apply str_eqb_eq in E; subst k0.
      intros [[= <- <-]|H]; auto.
    + intros [H|H]; auto. destruct (IH H); auto.
Qed.

Lemma In_dict_del k v k' d : In (k, v) (dict_del k' d) -> In (k, v) d.
Proof.
  induction d as [|[k0 v0] d IH]; simpl; auto.
  destruct (str_eqb k' k0); simpl; intuition.
Qed.

Lemma dict_set_fresh k v d :
  dict_get k d = None -> dict_set k v d = d ++ [(k, v)].
Proof.
  induction d as [|[k0 v0] d IH]; simpl; auto.
  destruct (str_eqb k k0); [discriminate|].
  intros H; rewrite IH; auto.
Qed.

Lemma dict_keys_set_present k v d :
  dict_get k d <> None -> dict_keys (dict_set k v d) = dict_keys d.
Proof.
  unfold dict_keys.
  induction d as [|[k0 v0] d IH]; simpl; [congruence|].
  destruct (str_eqb k k0); simpl; auto.
  intros H; rewrite IH; auto.
Qed.
End DictFacts.

(** ** Calendar arithmetic *)

Lemma valid_ymd_iff (y m d : Z) :
  valid_ymd y m d = true
  <-> 1 <= y <= 9999 /\ 1 <= m <= 12 /\ 1 <= d <= days_in_month y m.
Proof.
  unfold valid_ymd, MINYEAR, MAXYEAR.
  rewrite !andb_true_iff, !Z.leb_le. lia.
Qed.

Lemma date_new_ok (y m d : Z) :
  valid_ymd y m d = true -> date_new y m d = Ok (mkdate y m d).
Proof.
  unfold valid_ymd, date_new. rewrite !andb_true_iff.
  intros [[[[[Hy1 Hy2] Hm1] Hm2] Hd1] Hd2].
  rewrite Hy1, Hy2, Hm1, Hm2, Hd1, Hd2. reflexivity.
Qed.

Lemma date_new_raise (y m d : Z) :
  valid_ymd y m d = false -> exists msg, date_new y m d = Raise (ValueError msg).
Proof.
  unfold valid_ymd, date_new.
  destruct (MINYEAR <=? y), (y <=? MAXYEAR); simpl; eauto.
  destruct (1 <=? m), (m <=? 12); simpl; eauto.
  destruct (1 <=? d), (d <=? days_in_month y m); simpl; eauto.
  discriminate.
Qed.

Lemma date_new_inv (y m d : Z) (dt : date) :
  date_new y m d = Ok dt -> dt = mkdate y m d /\ valid_ymd y m d = true.
Proof.
  destruct (valid_ymd y m d) eqn:E.
  - rewrite (date_new_ok _ _ _ E). intros [= <-]; auto.
  - destruct (date_new_raise _ _ _ E) as [msg ->]. discriminate.
Qed.

Lemma month_cases (m : Z) :
  1 <= m <= 12 ->
  m = 1 \/ m = 2 \/ m = 3 \/ m = 4 \/ m = 5 \/ m = 6 \/ m = 7 \/ m = 8
  \/ m = 9 \/ m = 10 \/ m = 11 \/ m = 12.
Proof. lia. Qed.

Ltac each_month m H :=
  destruct (month_cases m H)
    as [?|[?|[?|[?|[?|[?|[?|[?|[?|[?|[?|?]]]]]]]]]]]; subst m.

Ltac month_tables :=
  unfold days_before_month, days_in_month in *;
  cbv beta iota delta
    [Z.ltb Z.compare Pos.compare Pos.compare_cont andb] in *.

Lemma days_before_year_succ (y : Z) :
  days_before_year (y + 1)
  = days_before_year y + (if is_leap y then 366 else 365).
Proof.
  unfold days_before_year, is_leap.
  replace (y + 1 - 1) with y by lia.
  destruct (Z.eqb_spec (y mod 4) 0), (Z.eqb_spec (y mod 100) 0),
    (Z.eqb_spec (y mod 400) 0); simpl;
    Z.div_mod_to_equations; lia.
Qed.

Lemma ord_in_year (y m d : Z) :
  valid_ymd y m d = true ->
  1 <= days_before_month y m + d <= (if is_leap y then 366 else 365).
Proof.
  rewrite valid_ymd_iff. intros (_ & Hm & Hd).
  each_month m Hm; month_tables; destruct (is_leap y); lia.
Qed.

Lemma ord_mono_in_year (y m d m' d' : Z) :
  valid_ymd y m d = true -> valid_ymd y m' d' = true ->
  m < m' \/ (m = m' /\ d <= d') ->
  days_before_month y m + d <= days_before_month y m' + d'.
Proof.
  rewrite !valid_ymd_iff. intros (_ & Hm & Hd) (_ & Hm' & Hd') Hlt.
  each_month m Hm; each_month m' Hm'; month_tables;
    destruct (is_leap y); lia.
Qed.

Lemma date_lt_false_same_year (y m d : Z) (b : date) :
  date_lt (mkdate y m d) b = false -> y = year b ->
  month b < m \/ (month b = m /\ day b <= d).
Proof.
  unfold date_lt; simpl. intros H ->.
  rewrite Z.ltb_irrefl, Z.eqb_refl in H. simpl in H.
  apply orb_false_iff in H. destruct H as [H1 H2].
  apply Z.ltb_ge in H1.
  destruct (Z.eqb_spec m (month b)) as [->|]; simpl in H2.
  - apply Z.ltb_ge in H2. lia.
  - lia.
Qed.

Lemma days_to_next_nonneg (today bday : date) :
  valid_date today = true -> occurs today bday = true ->
  0 <= days_to_next today bday.
Proof.
  unfold occurs, days_to_next, next_occurrence, valid_date.
  intros Ht H. apply andb_true_iff in H. destruct H as [Hthis Hnext].
  destruct (date_lt (this_year today bday) today) eqn:E;
    unfold this_year, toordinal, ymd2ord in *; simpl in *.
  - rewrite days_before_year_succ.
    pose proof (ord_in_year _ _ _ Ht). pose proof (ord_in_year _ _ _ Hnext).
    lia.
  - pose proof (date_lt_false_same_year _ _ _ _ E eq_refl) as Hle.
    pose proof (ord_mono_in_year _ _ _ _ _ Ht Hthis Hle). lia.
Qed.

(** ** The weekly birthday query *)

Lemma in_group_append (wd nm wd' nm' : pystr) (g : groups) :
  in_group wd nm (append_to wd' nm' g)
  <-> in_group wd nm g \/ (wd = wd' /\ nm = nm').
Proof.
  unfold in_group, append_to.
  destruct (dict_get wd' g) as [old|] eqn:Eold;
    setoid_rewrite dict_get_set;
    destruct (str_eqb wd wd') eqn:E;
    try (apply str_eqb_eq in E; subst wd');
    try (apply str_eqb_neq in E).
  - rewrite Eold. split.
    + intros (names & [= <-] & Hin). apply in_app_or in Hin.
      destruct Hin as [Hin|[<-|[]]]; eauto.
    + intros [(names & [= <-] & Hin)|[_ ->]];
        eexists; split; eauto; apply in_or_app; simpl; auto.
  - split; [auto | intros [H|[? _]]; [auto | contradiction]].
  - rewrite Eold. split.
    + intros (names & [= <-] & [<-|[]]); auto.
    + intros [(names & [=] & _)|[_ ->]].
      eexists; split; [reflexivity | simpl; auto].
  - split; [auto | intros [H|[? _]]; [auto | contradiction]].
Qed.

(** A turn of the loop on a record whose dates exist adds exactly the
    record's entry. *)
Lemma visit_ok (today : date) (g : groups) (record : Record_) :
  record_occurs today record = true ->
  visit today g record
  = Ok match entry_of today record with
       | Some (wd, nm) => append_to wd nm g
       | None => g
       end.
Proof.
  unfold record_occurs, visit, entry_of.
  destruct (birthday record) as [b|]; [|reflexivity].
  unfold occurs, next_occurrence, valid_date, replace_year, group_key,
    strftime_A.
  intros H. apply andb_true_iff in H. destruct H as [Hthis Hnext].
  simpl in Hthis. rewrite (date_new_ok _ _ _ Hthis). simpl.
  fold (this_year today (value b)) in *.
  destruct (date_lt (this_year today (value b)) today).
  - simpl in Hnext. rewrite (date_new_ok _ _ _ Hnext). simpl.
    destruct (sub_days _ today <? 7); reflexivity.
  - simpl. destruct (sub_days _ today <? 7); reflexivity.
Qed.

(** On a record with a date that does not exist the turn raises. *)
Lemma visit_raise (today : date) (g : groups) (record : Record_) :
  record_occurs today record = false ->
  exists msg, visit today g record = Raise (ValueError msg).
Proof.
  unfold record_occurs, visit.
  destruct (birthday record) as [b|]; [|discriminate].
  unfold occurs, next_occurrence, valid_date, replace_year.
  intros H.
  destruct (valid_ymd (year today) (month (value b)) (day (value b))) eqn:Ethis.
  - rewrite (date_new_ok _ _ _ Ethis). simpl.
    change (valid_ymd (year (this_year today (value b)))
              (month (this_year today (value b)))
              (day (this_year today (value b)))) with
      (valid_ymd (year today) (month (value b)) (day (value b))) in H.
    rewrite Ethis in H. simpl in H.
    fold (this_year today (value b)) in *.
    destruct (date_lt (this_year today (value b)) today).
    + simpl in H. destruct (date_new_raise _ _ _ H) as [msg ->]. simpl. eauto.
    + unfold this_year in H; simpl in H. congruence.
  - destruct (date_new_raise _ _ _ Ethis) as [msg ->]. simpl. eauto.
Qed.

Lemma for_records_ok (today : date) (records : list Record_) (g : groups) :
  forallb (record_occurs today) records = true ->
  exists g', for_records today records g = Ok g'
    /\ forall wd nm,
         in_group wd nm g'
         <-> in_group wd nm g
             \/ exists record, In record records
                  /\ entry_of today record = Some (wd, nm).
Proof.
  revert g. induction records as [|record rest IH]; simpl; intros g H.
  - exists g. split; [reflexivity|]. intros wd nm. split; auto.
    intros [?|(? & [] & _)]; auto.
  - apply andb_true_iff in H. destruct H as [Hrec Hrest].
    rewrite (visit_ok _ _ _ Hrec). simpl.
    destruct (IH (match entry_of today record with
                  | Some (wd, nm) => append_to wd nm g
                  | None => g
                  end) Hrest) as (g' & -> & Hg').
    exists g'. split; [reflexivity|]. intros wd nm. rewrite Hg'.
    destruct (entry_of today record) as [[wd0 nm0]|] eqn:E.
    + rewrite in_group_append. split.
      * intros [[?|[-> ->]]|(r & Hin & Hr)]; eauto.
      * intros [?|(r & [<-|Hin] & Hr)]; eauto.
        rewrite E in Hr. injection Hr as <- <-. auto.
    + split.
      * intros [?|(r & Hin & Hr)]; eauto.
      * intros [?|(r & [<-|Hin] & Hr)]; eauto. congruence.
Qed.

Lemma for_records_raise (today : date) (records : list Record_) (g : groups) :
  forallb (record_occurs today) records = false ->
  exists msg, for_records today records g = Raise (ValueError msg).
Proof.
  revert g. induction records as [|record rest IH]; simpl; intros g H.
  - discriminate.
  - destruct (record_occurs today record) eqn:Hrec; simpl in H.
    + rewrite (visit_ok _ _ _ Hrec). simpl. apply IH, H.
    + destruct (visit_raise today g record Hrec) as [msg ->]. simpl. eauto.
Qed.

Lemma for_records_inv (today : date) (records : list Record_) (g g' : groups) :
  for_records today records g = Ok g' ->
  forallb (record_occurs today) records = true.
Proof.
  intros H. destruct (forallb (record_occurs today) records) eqn:E; auto.
  destruct (for_records_raise today records g E) as [msg Hmsg]. congruence.
Qed.

Lemma in_group_empty (wd nm : pystr) : ~ in_group wd nm [].
Proof. intros (names & H & _). discriminate. Qed.

Lemma NoDup_map_eq {A B} (f : A -> B) (l : list A) (x y : A) :
  NoDup (map f l) -> In x l -> In y l -> f x = f y -> x = y.
Proof.
  induction l as [|a l IH]; simpl; [contradiction|].
  intros Hnd [<-|Hx] [<-|Hy] E; auto.
  - inversion Hnd; subst. exfalso. apply H1. rewrite E. now apply in_map.
  - inversion Hnd; subst. exfalso. apply H1. rewrite <- E. now apply in_map.
  - inversion Hnd; subst. auto.
Qed.

Lemma entry_of_name (today : date) (record : Record_) (wd nm : pystr) :
  entry_of today record = Some (wd, nm) -> nm = value (name record).
Proof.
  unfold entry_of. destruct (birthday record); [|discriminate].
  destruct (_ <? 7); [|discriminate]. now intros [= _ <-].
Qed.

(** The grouping holds exactly the entries of the records of the book. *)
Lemma query_entries (today : date) (book : AddressBook) (g : groups) :
  get_birthdays_per_week today book = Ok g ->
  forall wd nm,
    in_group wd nm g
    <-> exists record, In record (dict_values book)
          /\ entry_of today record = Some (wd, nm).
Proof.
  unfold get_birthdays_per_week. intros H wd nm.
  pose proof (for_records_inv _ _ _ _ H) as Hocc.
  destruct (for_records_ok today (dict_values book) [] Hocc) as (g' & Hg' & Hin).
  rewrite H in Hg'. injection Hg' as <-. rewrite Hin. split.
  - intros [Hbad|?]; auto. now apply in_group_empty in Hbad.
  - auto.
Qed.

Lemma entry_of_window (today : date) (record : Record_) (b : Birthday) :
  birthday record = Some b ->
  (exists wd, entry_of today record = Some (wd, value (name record)))
  <-> days_to_next today (value b) < 7.
Proof.
  unfold entry_of, days_to_next, sub_days. intros ->.
  destruct (Z.ltb_spec
    (toordinal (next_occurrence today (value b)) - toordinal today) 7).
  - split; eauto.
  - split; [intros [wd H']; discriminate | lia].
Qed.

Lemma entry_of_key (today : date) (record : Record_) (b : Birthday)
    (wd nm : pystr) :
  birthday record = Some b -> entry_of today record = Some (wd, nm) ->
  wd = group_key (next_occurrence today (value b)).
Proof.
  unfold entry_of. intros ->. destruct (_ <? 7); [|discriminate].
  now intros [= <- _].
Qed.

(** C1. When the dates of all birthdays exist, [get_birthdays_per_week]
    returns a grouping, and a record with a birthday has its name in it
    exactly when the number of days from today to the next occurrence of
    the birthday is at least 0 and less than 7; a birthday that falls on
    today is listed. *)
Theorem birthdays_week_window (today : date) (book : AddressBook) :
  valid_date today = true ->
  NoDup (record_names book) ->
  forallb (record_occurs today) (dict_values book) = true ->
  exists g,
    get_birthdays_per_week today book = Ok g
    /\ forall record b,
         In record (dict_values book) -> birthday record = Some b ->
         (listed (value (name record)) g
          <-> 0 <= days_to_next today (value b) < 7)
         /\ (days_to_next today (value b) = 0
             -> listed (value (name record)) g).
Proof.
  intros Htoday Hnames Hocc.
  destruct (for_records_ok today (dict_values book) [] Hocc) as (g & Hg & _).
  exists g. split; [exact Hg|]. intros record b Hin Hb.
  pose proof (query_entries today book g Hg) as Hq.
  assert (Hnonneg : 0 <= days_to_next today (value b)).
  { apply days_to_next_nonneg; [exact Htoday|].
    rewrite forallb_forall in Hocc. specialize (Hocc record Hin).
    unfold record_occurs in Hocc. now rewrite Hb in Hocc. }
  assert (Hiff : listed (value (name record)) g
                 <-> days_to_next today (value b) < 7).
  { rewrite <- (entry_of_window today record b Hb). unfold listed. split.
    - intros (wd & Hwd). apply Hq in Hwd. destruct Hwd as (r & Hr & He).
      pose proof (entry_of_name _ _ _ _ He) as Hn.
      assert (r = record) as ->.
      { apply (NoDup_map_eq (fun r0 => value (name r0)) (dict_values book));
          auto. }
      eauto.
    - intros (wd & He). exists wd. apply Hq. eauto. }
  split.
  - rewrite Hiff. lia.
  - intros H0. apply Hiff. lia.
Qed.

(** C2. A record listed by [get_birthdays_per_week] is grouped under
    "Monday", and under no other key, when its next occurrence falls on a
    Saturday or a Sunday, and under the full name of the weekday of that
    date, and no other key, otherwise. *)
Theorem weekend_grouped_under_monday (today : date) (book : AddressBook)
    (g : groups) :
  NoDup (record_names book) ->
  get_birthdays_per_week today book = Ok g ->
  forall record b,
    In record (dict_values book) -> birthday record = Some b ->
    listed (value (name record)) g ->
    (weekday (next_occurrence today (value b)) = 5
     \/ weekday (next_occurrence today (value b)) = 6
     -> grouped_only_under (lit "Monday") (value (name record)) g)
    /\ (weekday (next_occurrence today (value b)) <> 5
        -> weekday (next_occurrence today (value b)) <> 6
        -> grouped_only_under
             (day_name (weekday (next_occurrence today (value b))))
             (value (name record)) g).
Proof.
  intros Hnames Hg record b Hin Hb Hlisted.
  pose proof (query_entries today book g Hg) as Hq.
  assert (Hsame : forall wd, in_group wd (value (name record)) g ->
                    wd = group_key (next_occurrence today (value b))).
  { intros wd Hwd. apply Hq in Hwd. destruct Hwd as (r & Hr & He).
    pose proof (entry_of_name _ _ _ _ He) as Hn.
    assert (r = record) as ->.
    { apply (NoDup_map_eq (fun r0 => value (name r0)) (dict_values book));
        auto. }
    eapply entry_of_key; eauto. }
  assert (Hkey : grouped_only_under
                   (group_key (next_occurrence today (value b)))
                   (value (name record)) g).
  { destruct Hlisted as (wd & Hwd). split; [|exact Hsame].
    now rewrite <- (Hsame wd Hwd). }
  unfold group_key in Hkey. split.
  - intros [E|E]; rewrite E in Hkey; exact Hkey.
  - intros N5 N6.
    destruct (Z.eqb_spec (weekday (next_occurrence today (value b))) 5);
      [contradiction|].
    destruct (Z.eqb_spec (weekday (next_occurrence today (value b))) 6);
      [contradiction|].
    exact Hkey.
Qed.

(** C9. With a record whose birthday is February 29, when the current
    year is not a leap year, or the date has passed in the current year
    and the next year is not a leap year, [get_birthdays_per_week] raises
    the [ValueError] of the date construction, and
    [show_birthdays_next_week] lets it through. *)
Theorem feb29_raises (today : date) (book : AddressBook) (record : Record_)
    (b : Birthday) :
  In record (dict_values book) -> birthday record = Some b ->
  month (value b) = 2 -> day (value b) = 29 ->
  is_leap (year today) = false
  \/ (date_lt (this_year today (value b)) today = true
      /\ is_leap (year today + 1) = false) ->
  exists msg,
    get_birthdays_per_week today book = Raise (ValueError msg)
    /\ show_birthdays_next_week today book = Raise (ValueError msg).
Proof.
  intros Hin Hb Hm Hd Hleap.
  assert (Hocc : record_occurs today record = false).
  { unfold record_occurs, occurs, next_occurrence, valid_date. rewrite Hb.
    assert (Hfeb : forall y, is_leap y = false -> valid_ymd y 2 29 = false).
    { intros y Hy. unfold valid_ymd, days_in_month. rewrite Hy.
      apply andb_false_iff; right. reflexivity. }
    destruct Hleap as [Hy|[Hlt Hy]].
    - apply andb_false_iff; left. unfold this_year; simpl.
      rewrite Hm, Hd. auto.
    - apply andb_false_iff; right. rewrite Hlt; simpl.
      rewrite Hm, Hd. auto. }
  assert (Hall : forallb (record_occurs today) (dict_values book) = false).
  { destruct (forallb (record_occurs today) (dict_values book)) eqn:E; auto.
    rewrite forallb_forall in E. specialize (E record Hin). congruence. }
  destruct (for_records_raise today (dict_values book) [] Hall) as [msg Hmsg].
  exists msg. unfold show_birthdays_next_week, get_birthdays_per_week.
  rewrite Hmsg. auto.
Qed.

(** ** Phone numbers *)

Lemma ascii_digit_range (c : Z) : is_ascii_digit c = true <-> 48 <= c <= 57.
Proof. unfold is_ascii_digit. rewrite andb_true_iff, !Z.leb_le. tauto. Qed.

Lemma ascii_digit_isdigit (c : Z) :
  is_ascii_digit c = true -> isdigit_char c = true.
Proof.
  unfold is_ascii_digit, isdigit_char, in_ranges, digit_table.
  intros H. cbn [existsb fst snd]. rewrite H. reflexivity.
Qed.

Lemma Phone_validate_iff (s : pystr) :
  Phone_validate s = true
  <-> List.length s = 10%nat /\ Forall (fun c => isdigit_char c = true) s.
Proof.
  unfold Phone_validate, len, isdigit.
  rewrite andb_true_iff, Z.eqb_eq, Forall_forall, <- forallb_forall.
  split.
  - intros [Hlen Hd]. split; [lia|]. destruct s; [discriminate | exact Hd].
  - intros [Hlen Hd]. split; [lia|]. destruct s; [discriminate | exact Hd].
Qed.

(** C3, as the code has it. [Phone] accepts a string, and stores it
    unchanged, exactly when it has ten characters that [str.isdigit]
    takes for digits; every other string raises [ValueError("Invalid
    phone format")]; ten ASCII decimal digits are always accepted. *)
Theorem phone_accepts_ten_digits (s : pystr) :
  (Phone_new s = Ok (mkField s)
   <-> List.length s = 10%nat /\ Forall (fun c => isdigit_char c = true) s)
  /\ (forall p, Phone_new s = Ok p -> value p = s)
  /\ (~ (List.length s = 10%nat /\ Forall (fun c => isdigit_char c = true) s)
      -> Phone_new s = Raise (ValueError (lit "Invalid phone format")))
  /\ (List.length s = 10%nat ->
      Forall (fun c => is_ascii_digit c = true) s ->
      Phone_new s = Ok (mkField s)).
Proof.
  pose proof (Phone_validate_iff s) as Hv. unfold Phone_new.
  destruct (Phone_validate s).
  - assert (Hok := proj1 Hv eq_refl).
    split; [split; auto|].
    split; [intros p [= <-]; reflexivity|].
    split; [intros N; contradiction | auto].
  - assert (Hno : ~ (List.length s = 10%nat
                     /\ Forall (fun c => isdigit_char c = true) s)).
    { intros H. apply Hv in H. discriminate. }
    split; [split; [discriminate | intros H; contradiction]|].
    split; [discriminate|].
    split; [reflexivity|].
    intros Hlen Hd. exfalso. apply Hno. split; [exact Hlen|].
    eapply Forall_impl; [|exact Hd]. apply ascii_digit_isdigit.
Qed.

(** C3, counterexample. Ten Arabic-Indic digits are accepted although
    none of them is an ASCII decimal digit. *)
Lemma phone_accepts_non_ascii_digits :
  Phone_new arabic_indic_phone = Ok (mkField arabic_indic_phone)
  /\ List.length arabic_indic_phone = 10%nat
  /\ forallb is_ascii_digit arabic_indic_phone = false
  /\ ~ (forall s, (exists p, Phone_new s = Ok p) ->
          Forall (fun c => is_ascii_digit c = true) s).
Proof.
  repeat split; try reflexivity.
  intros H. specialize (H arabic_indic_phone (ex_intro _ _ eq_refl)).
  inversion H; discriminate.
Qed.

(** ** Parsing and formatting birthdays *)

Lemma ascii_digit_isdecimal (c : Z) :
  is_ascii_digit c = true -> isdecimal_char c = true.
Proof.
  unfold is_ascii_digit, isdecimal_char, in_ranges, decimal_table.
  intros H. cbn [existsb fst snd]. rewrite H. reflexivity.
Qed.

Lemma ascii_digit_value (c : Z) :
  is_ascii_digit c = true -> decimal_value c = Some (c - 48).
Proof.
  intros H. pose proof H as Hr. apply ascii_digit_range in Hr.
  unfold is_ascii_digit in H.
  unfold decimal_value, decimal_table. cbn [List.find fst snd]. rewrite H.
  f_equal. apply Z.mod_small. lia.
Qed.

Lemma ascii_digit_not_space (c : Z) :
  is_ascii_digit c = true -> isspace_char c = false.
Proof.
  rewrite ascii_digit_range. intros H.
  unfold isspace_char, in_ranges. cbn [existsb fst snd].
  repeat (apply orb_false_iff; split); try reflexivity;
    apply andb_false_iff; lia.
Qed.

Lemma ascii_digit_offset (q : Z) :
  0 <= q <= 9 -> is_ascii_digit (48 + q) = true.
Proof. intros H. apply ascii_digit_range. lia. Qed.

Lemma Z_range_In (lo hi d : Z) :
  lo <= d <= hi ->
  In d (map (fun i => lo + Z.of_nat i) (seq 0 (Z.to_nat (hi - lo + 1)))).
Proof.
  intros H. apply in_map_iff. exists (Z.to_nat (d - lo)). split; [lia|].
  apply in_seq. lia.
Qed.

(** Proves a goal [forall d, lo <= d <= hi -> P d] one value at a time. *)
Ltac each_value lo hi tac :=
  let d := fresh "d" in
  let H := fresh "H" in
  intros d H; apply (Z_range_In lo hi) in H; revert d H;
  match goal with
  | |- forall x, In x ?l -> @?P x => apply (proj1 (Forall_forall P l))
  end;
  let l := eval vm_compute in
    (map (fun i => lo + Z.of_nat i) (seq 0 (Z.to_nat (hi - lo + 1)))) in
  change (map (fun i => lo + Z.of_nat i) (seq 0 (Z.to_nat (hi - lo + 1))))
    with l;
  repeat (apply Forall_cons; [tac|]); apply Forall_nil.

Lemma re_d_pad2 :
  forall d, 1 <= d <= 31 ->
  forall tail k found rest,
    k tail = Some (found, rest) ->
    try_alts dir_d re_d (pad2 d ++ tail) k
    = Some ((dir_d, pad2 d) :: found, rest).
Proof.
  each_value 1 31
    ltac:(intros tail k found rest Hk; cbn; rewrite Hk; reflexivity).
Qed.

Lemma re_m_pad2 :
  forall m, 1 <= m <= 12 ->
  forall tail k found rest,
    k tail = Some (found, rest) ->
    try_alts dir_m re_m (pad2 m ++ tail) k
    = Some ((dir_m, pad2 m) :: found, rest).
Proof.
  each_value 1 12
    ltac:(intros tail k found rest Hk; cbn; rewrite Hk; reflexivity).
Qed.

Lemma pad4_digits (y : Z) :
  0 <= y <= 9999 -> Forall (fun c => is_ascii_digit c = true) (pad4 y).
Proof.
  intros H. unfold pad4.
  repeat (apply Forall_cons; [apply ascii_digit_offset|]);
    try apply Forall_nil;
    Z.div_mod_to_equations; lia.
Qed.

Lemma pad2_digits (n : Z) :
  0 <= n <= 99 -> Forall (fun c => is_ascii_digit c = true) (pad2 n).
Proof.
  intros H. unfold pad2.
  repeat (apply Forall_cons; [apply ascii_digit_offset|]);
    try apply Forall_nil;
    Z.div_mod_to_equations; lia.
Qed.

Lemma match_seq_decimals (txt tail : pystr) :
  Forall (fun c => is_ascii_digit c = true) txt ->
  match_seq (map (fun _ => Dec) txt) (txt ++ tail) = Some (txt, tail).
Proof.
  induction 1 as [|c txt Hc _ IH]; simpl; [reflexivity|].
  rewrite (ascii_digit_isdecimal c Hc), IH. reflexivity.
Qed.

Lemma re_Y_pad4 (y : Z) (tail : pystr) :
  0 <= y <= 9999 ->
  try_alts dir_Y re_Y (pad4 y ++ tail) (rx_match [])
  = Some ([(dir_Y, pad4 y)], tail).
Proof.
  intros H. unfold re_Y. cbn [try_alts].
  change [Dec; Dec; Dec; Dec] with (map (fun _ : Z => Dec) (pad4 y)).
  rewrite (match_seq_decimals _ tail (pad4_digits y H)). reflexivity.
Qed.

Lemma int_digits_ascii (txt : pystr) (acc : Z) :
  Forall (fun c => is_ascii_digit c = true) txt ->
  int_digits txt acc
  = Some (fold_left (fun a c => a * 10 + (c - 48)) txt acc).
Proof.
  intros H. revert acc. induction H as [|c txt Hc _ IH]; intros acc; simpl.
  - reflexivity.
  - rewrite (ascii_digit_value c Hc). apply IH.
Qed.

Lemma lstrip_digit (c : Z) (s : pystr) :
  is_ascii_digit c = true -> lstrip (c :: s) = c :: s.
Proof. intros H. simpl. now rewrite (ascii_digit_not_space c H). Qed.

Lemma py_int_two (a b : Z) :
  is_ascii_digit a = true -> is_ascii_digit b = true ->
  py_int [a; b] = Ok ((a - 48) * 10 + (b - 48)).
Proof.
  intros Ha Hb. unfold py_int, strip.
  rewrite (lstrip_digit a _ Ha). cbn [rev app].
  rewrite (lstrip_digit b _ Hb). cbn [rev app].
  rewrite int_digits_ascii by (repeat constructor; assumption).
  simpl. f_equal; lia.
Qed.

Lemma py_int_four (a b c d : Z) :
  is_ascii_digit a = true -> is_ascii_digit b = true ->
  is_ascii_digit c = true -> is_ascii_digit d = true ->
  py_int [a; b; c; d]
  = Ok ((((a - 48) * 10 + (b - 48)) * 10 + (c - 48)) * 10 + (d - 48)).
Proof.
  intros Ha Hb Hc Hd. unfold py_int, strip.
  rewrite (lstrip_digit a _ Ha). cbn [rev app].
  rewrite (lstrip_digit d _ Hd). cbn [rev app].
  rewrite int_digits_ascii by (repeat constructor; assumption).
  simpl. f_equal; lia.
Qed.

Lemma py_int_pad2 (n : Z) : 0 <= n <= 99 -> py_int (pad2 n) = Ok n.
Proof.
  intros H. unfold pad2.
  rewrite py_int_two;
    [f_equal | apply ascii_digit_offset ..];
    Z.div_mod_to_equations; lia.
Qed.

Lemma py_int_pad4 (y : Z) : 0 <= y <= 9999 -> py_int (pad4 y) = Ok y.
Proof.
  intros H. unfold pad4.
  rewrite py_int_four;
    [f_equal | apply ascii_digit_offset ..];
    Z.div_mod_to_equations; lia.
Qed.

Lemma valid_date_bounds (dt : date) :
  valid_date dt = true ->
  1 <= year dt <= 9999 /\ 1 <= month dt <= 12 /\ 1 <= day dt <= 31.
Proof.
  destruct dt as [y m d]. unfold valid_date. cbn [year month day].
  rewrite valid_ymd_iff. intros (Hy & Hm & Hd).
  repeat split; try lia.
  each_month m Hm; month_tables; try destruct (is_leap y); lia.
Qed.

Lemma rx_match_group (g : directive) (alts : list (list cclass))
    (items : list item) (s : pystr) :
  rx_match (Group g alts :: items) s = try_alts g alts s (rx_match items).
Proof. reflexivity. Qed.

(** The zero-padded text of a valid date parses to that date. *)
Lemma strptime_canonical (dt : date) :
  valid_date dt = true -> strptime (strftime_dmY true dt) = Ok dt.
Proof.
  intros Hv. destruct (valid_date_bounds dt Hv) as (Hy & Hm & Hd).
  destruct dt as [y m d]; simpl in *.
  unfold strptime, strftime_dmY, format_regex; simpl year; simpl month;
    simpl day. cbv iota.
  assert (HY : rx_match [Group dir_Y re_Y] (pad4 y)
               = Some ([(dir_Y, pad4 y)], [])).
  { cbn [rx_match]. rewrite <- (app_nil_r (pad4 y)) at 1.
    apply re_Y_pad4. lia. }
  assert (HM : rx_match [Literal 46; Group dir_m re_m; Literal 46;
                         Group dir_Y re_Y]
                 ([46] ++ pad2 m ++ [46] ++ pad4 y)
               = Some ([(dir_m, pad2 m); (dir_Y, pad4 y)], [])).
  { cbn [rx_match app]. rewrite Z.eqb_refl.
    apply re_m_pad2; [exact Hm|]. cbn [app]. rewrite Z.eqb_refl. exact HY. }
  rewrite rx_match_group, (re_d_pad2 d Hd _ _ _ _ HM).
  cbn [read_groups]. rewrite (py_int_pad2 d) by lia. cbn [rbind].
  rewrite (py_int_pad2 m) by lia. cbn [rbind].
  rewrite (py_int_pad4 y) by lia. cbn [rbind].
  apply date_new_ok. exact Hv.
Qed.

Lemma str_of_int_four (y : Z) :
  1000 <= y <= 9999 -> str_of_int y = pad4 y.
Proof.
  intros H. unfold str_of_int, pad4.
  assert (Hlog : 9 <= Z.log2 y).
  { apply Z.log2_le_pow2; [lia|]. change (2 ^ 9) with 512. lia. }
  destruct (Z.to_nat (Z.log2 y)) as [|[|[|fuel]]] eqn:E; try lia.
  cbn [digits_fuel].
  destruct (Z.eqb_spec (y / 10) 0);
    [exfalso; Z.div_mod_to_equations; lia|].
  destruct (Z.eqb_spec (y / 10 / 10) 0);
    [exfalso; Z.div_mod_to_equations; lia|].
  destruct (Z.eqb_spec (y / 10 / 10 / 10) 0);
    [exfalso; Z.div_mod_to_equations; lia|].
  destruct (Z.eqb_spec (y / 10 / 10 / 10 / 10) 0);
    [|exfalso; Z.div_mod_to_equations; lia].
  replace (y / 10 / 10 / 10) with (y / 1000)
    by (Z.div_mod_to_equations; lia).
  replace (y / 10 / 10) with (y / 100) by (Z.div_mod_to_equations; lia).
  rewrite (Z.mod_small (y / 1000) 10) by (Z.div_mod_to_equations; lia).
  reflexivity.
Qed.

Lemma match_seq_inv (p : list cclass) (s txt rest : pystr) :
  match_seq p s = Some (txt, rest) ->
  s = txt ++ rest /\ Forall2 (fun cl c => cmatch cl c = true) p txt.
Proof.
  revert s txt rest. induction p as [|cl p IH]; intros s txt rest; simpl.
  - intros [= <- <-]. split; [reflexivity | constructor].
  - destruct s as [|c s]; [discriminate|].
    destruct (cmatch cl c) eqn:Ec; [|discriminate].
    destruct (match_seq p s) as [[txt' rest']|] eqn:Es; [|discriminate].
    intros [= <- <-]. destruct (IH _ _ _ Es) as [-> HF].
    split; [reflexivity | constructor; assumption].
Qed.

Lemma try_alts_inv (g : directive) (alts : list (list cclass)) (s : pystr)
    (k : pystr -> option (found_dict * pystr)) (found : found_dict)
    (rest : pystr) :
  try_alts g alts s k = Some (found, rest) ->
  exists alt txt s' found',
    In alt alts /\ match_seq alt s = Some (txt, s')
    /\ k s' = Some (found', rest) /\ found = (g, txt) :: found'.
Proof.
  induction alts as [|alt alts IH]; simpl; [discriminate|].
  intros H.
  assert (Hrest : try_alts g alts s k = Some (found, rest) ->
    exists alt0 txt s' found',
      (alt = alt0 \/ In alt0 alts) /\ match_seq alt0 s = Some (txt, s')
      /\ k s' = Some (found', rest) /\ found = (g, txt) :: found').
  { intros H'. destruct (IH H') as (a & t & s' & f' & Hin & Hrec).
    exists a, t, s', f'. split; [right; exact Hin | exact Hrec]. }
  destruct (match_seq alt s) as [[txt s']|] eqn:Em; [|auto].
  destruct (k s') as [[found' rest']|] eqn:Ek; [|auto].
  injection H as <- <-. exists alt, txt, s', found'. auto.
Qed.

Lemma rx_match_literal_inv (c : Z) (items : list item) (s : pystr)
    (r : found_dict * pystr) :
  rx_match (Literal c :: items) s = Some r ->
  exists s', s = c :: s' /\ rx_match items s' = Some r.
Proof.
  simpl. destruct s as [|x s]; [discriminate|].
  destruct (Z.eqb_spec x c) as [->|]; [|discriminate]. eauto.
Qed.

(** What a match of the compiled pattern looks like: a day group, a dot,
    a month group, a dot and a year group, each matched by one of its
    alternatives. *)
Lemma rx_match_format_inv (s : pystr) (found : found_dict) (rest : pystr) :
  rx_match format_regex s = Some (found, rest) ->
  exists aD aM D Mo Y,
    In aD re_d /\ In aM re_m
    /\ Forall2 (fun cl c => cmatch cl c = true) aD D
    /\ Forall2 (fun cl c => cmatch cl c = true) aM Mo
    /\ Forall2 (fun cl c => cmatch cl c = true) [Dec; Dec; Dec; Dec] Y
    /\ s = D ++ 46 :: Mo ++ 46 :: Y ++ rest
    /\ found = [(dir_d, D); (dir_m, Mo); (dir_Y, Y)].
Proof.
  unfold format_regex. rewrite rx_match_group. intros H.
  apply try_alts_inv in H.
  destruct H as (aD & D & s1 & f1 & HaD & HD & Hk1 & ->).
  apply rx_match_literal_inv in Hk1. destruct Hk1 as (s2 & -> & Hk1).
  rewrite rx_match_group in Hk1. apply try_alts_inv in Hk1.
  destruct Hk1 as (aM & Mo & s3 & f2 & HaM & HM & Hk2 & ->).
  apply rx_match_literal_inv in Hk2. destruct Hk2 as (s4 & -> & Hk2).
  rewrite rx_match_group in Hk2. apply try_alts_inv in Hk2.
  destruct Hk2 as (aY & Y & s5 & f3 & HaY & HY & Hk3 & ->).
  simpl in Hk3. injection Hk3 as <- <-.
  destruct HaY as [<-|[]].
  apply match_seq_inv in HD, HM, HY.
  destruct HD as [-> HD], HM as [-> HM], HY as [-> HY].
  exists aD, aM, D, Mo, Y. repeat split; auto.
Qed.

Lemma strict_form_inv (s : pystr) :
  strict_form s = true ->
  exists a b c d e f g h,
    s = [a; b; 46; c; d; 46; e; f; g; h]
    /\ Forall (fun x => is_ascii_digit x = true) [a; b; c; d; e; f; g; h].
Proof.
  destruct s as [|a [|b [|p [|c [|d [|q [|e [|f [|g [|h [|]]]]]]]]]]];
    try discriminate.
  unfold strict_form. rewrite !andb_true_iff, !Z.eqb_eq.
  intros [[[[[[[[[Ha Hb] ->] Hc] Hd] ->] He] Hf] Hg] Hh].
  exists a, b, c, d, e, f, g, h. split; [reflexivity|].
  repeat constructor; assumption.
Qed.

Lemma pad2_of_digits (a b : Z) :
  is_ascii_digit a = true -> is_ascii_digit b = true ->
  pad2 ((a - 48) * 10 + (b - 48)) = [a; b].
Proof.
  rewrite !ascii_digit_range. intros Ha Hb. unfold pad2.
  f_equal; [|f_equal]; Z.div_mod_to_equations; lia.
Qed.

Lemma pad4_of_digits (a b c d : Z) :
  is_ascii_digit a = true -> is_ascii_digit b = true ->
  is_ascii_digit c = true -> is_ascii_digit d = true ->
  pad4 ((((a - 48) * 10 + (b - 48)) * 10 + (c - 48)) * 10 + (d - 48))
  = [a; b; c; d].
Proof.
  rewrite !ascii_digit_range. intros Ha Hb Hc Hd. unfold pad4.
  f_equal; [|f_equal; [|f_equal; [|f_equal]]];
    Z.div_mod_to_equations; lia.
Qed.

Lemma re_d_lengths (alt : list cclass) :
  In alt re_d -> (List.length alt = 1 \/ List.length alt = 2)%nat.
Proof. simpl. intros [<-|[<-|[<-|[<-|[<-|[]]]]]]; simpl; auto. Qed.

Lemma re_m_lengths (alt : list cclass) :
  In alt re_m -> (List.length alt = 1 \/ List.length alt = 2)%nat.
Proof. simpl. intros [<-|[<-|[<-|[]]]]; simpl; auto. Qed.

Lemma strptime_valid (s : pystr) (dt : date) :
  strptime s = Ok dt -> valid_date dt = true.
Proof.
  unfold strptime.
  destruct (rx_match format_regex s) as [[found [|]]|]; try discriminate.
  destruct (read_groups found (None, 1, 1)) as [[[y m] d]|]; simpl;
    [|discriminate].
  intros H. apply date_new_inv in H. destruct H as [-> H]. exact H.
Qed.

(** On text in the strict form, formatting undoes parsing. *)
Lemma strptime_strict (s : pystr) (dt : date) :
  strict_form s = true -> strptime s = Ok dt -> strftime_dmY true dt = s.
Proof.
  intros Hs H. apply strict_form_inv in Hs.
  destruct Hs as (a & b & c & d & e & f & g & h & -> & Hdig).
  unfold strptime in H.
  destruct (rx_match format_regex _) as [[found rest]|] eqn:E;
    [|discriminate].
  destruct rest; [|discriminate].
  apply rx_match_format_inv in E.
  destruct E as (aD & aM & D & Mo & Y & HaD & HaM & HD & HM & HY & Hs & ->).
  apply re_d_lengths in HaD. apply re_m_lengths in HaM.
  apply Forall2_length in HD, HM, HY. simpl in HY.
  assert (Hlen := f_equal (@List.length Z) Hs).
  rewrite length_app in Hlen. simpl in Hlen.
  rewrite length_app in Hlen. simpl in Hlen.
  rewrite length_app in Hlen. simpl in Hlen.
  destruct D as [|d1 [|d2 [|? ?]]]; simpl in HD, Hlen; try lia.
  destruct Mo as [|m1 [|m2 [|? ?]]]; simpl in HM, Hlen; try lia.
  destruct Y as [|y1 [|y2 [|y3 [|y4 [|? ?]]]]]; simpl in HY; try lia.
  simpl in Hs. injection Hs as <- <- <- <- <- <- <- <-.
  inversion Hdig as [|? ? Ha H1]; subst. inversion H1 as [|? ? Hb H2]; subst.
  inversion H2 as [|? ? Hc H3]; subst. inversion H3 as [|? ? Hd H4]; subst.
  inversion H4 as [|? ? He H5]; subst. inversion H5 as [|? ? Hf H6]; subst.
  inversion H6 as [|? ? Hg H7]; subst. inversion H7 as [|? ? Hh _]; subst.
  cbn [read_groups] in H.
  rewrite (py_int_two a b Ha Hb) in H. cbn [rbind] in H.
  rewrite (py_int_two c d Hc Hd) in H. cbn [rbind] in H.
  rewrite (py_int_four e f g h He Hf Hg Hh) in H. cbn [rbind] in H.
  apply date_new_inv in H. destruct H as [-> _].
  unfold strftime_dmY. cbn [year month day].
  rewrite (pad2_of_digits a b Ha Hb), (pad2_of_digits c d Hc Hd),
    (pad4_of_digits e f g h He Hf Hg Hh).
  reflexivity.
Qed.

Lemma strftime_pad_irrelevant (pad_year : bool) (dt : date) :
  valid_date dt = true -> pad_year = true \/ 1000 <= year dt ->
  strftime_dmY pad_year dt = strftime_dmY true dt.
Proof.
  intros Hv [->|Hy]; [reflexivity|].
  destruct (valid_date_bounds dt Hv) as (Hy' & _).
  destruct pad_year; [reflexivity|].
  unfold strftime_dmY. rewrite str_of_int_four by lia. reflexivity.
Qed.

Lemma strftime_strict (dt : date) :
  valid_date dt = true -> strict_form (strftime_dmY true dt) = true.
Proof.
  intros Hv. destruct (valid_date_bounds dt Hv) as (Hy & Hm & Hd).
  unfold strftime_dmY, pad2, pad4. cbn [app strict_form].
  rewrite !ascii_digit_offset by (Z.div_mod_to_equations; lia).
  reflexivity.
Qed.

Lemma Birthday_new_inv (s : pystr) (b : Birthday) :
  Birthday_new s = Ok b -> strptime s = Ok (value b).
Proof.
  unfold Birthday_new, Birthday_validate.
  destruct (strptime s) as [dt|[]]; simpl; try discriminate.
  intros [= <-]. reflexivity.
Qed.

Lemma Birthday_new_ok (s : pystr) (dt : date) :
  strptime s = Ok dt -> Birthday_new s = Ok (mkField dt).
Proof.
  unfold Birthday_new, Birthday_validate. intros ->. reflexivity.
Qed.

(** C4, counterexample. The text "1.2.2020" is not in the strict form,
    yet [Birthday] accepts it, and formatting the stored date gives
    "01.02.2020", not the input. *)
Lemma birthday_accepts_short_fields :
  Birthday_new (lit "1.2.2020") = Ok (mkField (mkdate 2020 2 1))
  /\ strict_form (lit "1.2.2020") = false
  /\ (forall pad_year,
        strftime_dmY pad_year (mkdate 2020 2 1) = lit "01.02.2020")
  /\ lit "01.02.2020" <> lit "1.2.2020".
Proof.
  split; [reflexivity|]. split; [reflexivity|]. split.
  - intros [|]; reflexivity.
  - discriminate.
Qed.

(** Other spellings [strptime] takes: a space before a one-digit day, and
    decimal digits outside ASCII. *)
Example birthday_other_spellings :
  Birthday_new (lit " 1.02.2020") = Ok (mkField (mkdate 2020 2 1))
  /\ Birthday_new [49; 1632; 46; 48; 49; 46; 50; 48; 50; 48]
     = Ok (mkField (mkdate 2020 1 10))
  /\ Birthday_new (lit "31.02.2021")
     = Raise (ValueError (lit "Invalid birthday format"))
  /\ Birthday_new (lit "2021.02.01")
     = Raise (ValueError (lit "Invalid birthday format"))
  /\ Birthday_new []
     = Raise (ValueError (lit "Invalid birthday format")).
Proof. repeat split; reflexivity. Qed.

(** ** Bot functions *)

Ltac bot_unfold :=
  unfold add_contact_safely, change_contact_safely, get_phone_safely,
    add_birthday_safely, show_birthday_safely, input_error,
    add_contact_body, change_contact_body, get_phone_body,
    add_birthday_body, show_birthday_body, bind, lift, get_book, put_book,
    ret, raise.

Lemma py_int_raise (s : pystr) (e : exn) :
  py_int s = Raise e -> exists msg, e = ValueError msg.
Proof.
  unfold py_int. destruct (strip s); [intros [= <-]; eauto|].
  destruct (int_digits _ 0); [discriminate | intros [= <-]; eauto].
Qed.

Lemma read_groups_raise (found : found_dict) (ymd : option Z * Z * Z)
    (e : exn) :
  read_groups found ymd = Raise e -> exists msg, e = ValueError msg.
Proof.
  revert ymd. induction found as [|[g txt] found IH]; intros ymd; simpl.
  - discriminate.
  - destruct (py_int txt) eqn:E; simpl.
    + destruct ymd as [[y m] d]. apply IH.
    + intros [= <-]. eapply py_int_raise; eauto.
Qed.

(** [strptime] raises nothing but [ValueError]. *)
Lemma strptime_raise (s : pystr) (e : exn) :
  strptime s = Raise e -> exists msg, e = ValueError msg.
Proof.
  unfold strptime.
  destruct (rx_match format_regex s) as [[found [|]]|];
    try (intros [= <-]; eauto).
  destruct (read_groups found (None, 1, 1)) as [[[y m] d]|e'] eqn:E; simpl.
  - intros H.
    destruct (valid_ymd (match y with Some y' => y' | None => 1900 end) m d)
      eqn:Ev.
    + rewrite (date_new_ok _ _ _ Ev) in H. discriminate.
    + destruct (date_new_raise _ _ _ Ev) as [msg Hmsg].
      rewrite Hmsg in H. injection H as <-. eauto.
  - intros [= <-]. eapply read_groups_raise; eauto.
Qed.

Lemma Birthday_new_cases (s : pystr) :
  (exists b, Birthday_new s = Ok b /\ valid_date (value b) = true)
  \/ Birthday_new s = Raise (ValueError (lit "Invalid birthday format")).
Proof.
  destruct (Birthday_new s) as [b|e] eqn:E.
  - left. exists b. split; [reflexivity|].
    eapply strptime_valid, Birthday_new_inv, E.
  - right. revert E. unfold Birthday_new, Birthday_validate.
    destruct (strptime s) as [dt|e'] eqn:Es; simpl; [discriminate|].
    destruct (strptime_raise _ _ Es) as [msg ->]. simpl. intros [= <-].
    reflexivity.
Qed.

Lemma space_values (c : Z) :
  isspace_char c = true ->
  In c [9; 10; 11; 12; 13; 28; 29; 30; 31; 32; 133; 160; 5760; 8192; 8193;
        8194; 8195; 8196; 8197; 8198; 8199; 8200; 8201; 8202; 8232; 8233;
        8239; 8287; 12288].
Proof.
  unfold isspace_char, in_ranges. cbn [existsb fst snd].
  rewrite !orb_true_iff, !andb_true_iff, !Z.leb_le. intros H. simpl.
  lia.
Qed.

Lemma decimal_not_space (c : Z) :
  isdecimal_char c = true -> isspace_char c = false.
Proof.
  intros Hd. destruct (isspace_char c) eqn:E; [|reflexivity].
  apply space_values in E. simpl in E.
  repeat (destruct E as [<-|E]; [vm_compute in Hd; discriminate|]).
  destruct E.
Qed.

Lemma decimal_has_value (c : Z) :
  isdecimal_char c = true -> exists v, decimal_value c = Some v.
Proof.
  unfold isdecimal_char, in_ranges, decimal_value. intros H.
  destruct (List.find (fun r => (fst r <=? c) && (c <=? snd r)) decimal_table)
    eqn:E; [eauto|].
  apply existsb_exists in H. destruct H as (r & Hin & Hr).
  rewrite (find_none _ _ E r Hin) in Hr. discriminate.
Qed.

Lemma int_digits_decimals (txt : pystr) (acc : Z) :
  forallb isdecimal_char txt = true ->
  int_digits txt acc
  = Some (fold_left (fun a c => match decimal_value c with
                                | Some v => a * 10 + v
                                | None => a
                                end) txt acc).
Proof.
  revert acc. induction txt as [|c txt IH]; intros acc; simpl.
  - reflexivity.
  - intros H. apply andb_true_iff in H. destruct H as [Hc Ht].
    destruct (decimal_has_value c Hc) as [v ->]. apply IH, Ht.
Qed.

Lemma lstrip_id (c : Z) (txt : pystr) :
  isspace_char c = false -> lstrip (c :: txt) = c :: txt.
Proof. intros H. simpl. now rewrite H. Qed.

Lemma strip_decimals (txt : pystr) :
  forallb isdecimal_char txt = true -> strip txt = txt.
Proof.
  intros H. unfold strip.
  assert (Hall : forall c, In c txt -> isspace_char c = false).
  { intros c Hin. apply decimal_not_space.
    rewrite forallb_forall in H. auto. }
  assert (Hl : forall t, (forall c, In c t -> isspace_char c = false) ->
                 lstrip t = t).
  { intros [|c t] Ht; [reflexivity|]. apply lstrip_id, Ht. now left. }
  rewrite (Hl txt Hall), Hl, rev_involutive; [reflexivity|].
  intros c Hin. apply Hall. now apply in_rev.
Qed.

(** [int] on a non-empty run of decimal digits. *)
Lemma py_int_decimals (txt : pystr) :
  txt <> [] -> forallb isdecimal_char txt = true ->
  py_int txt = Ok (digits_value txt).
Proof.
  intros Hne H. unfold py_int, digits_value.
  rewrite (strip_decimals txt H).
  destruct txt as [|c t]; [contradiction|].
  now rewrite (int_digits_decimals (c :: t) 0 H).
Qed.

Lemma in_range_iff (lo hi c : Z) : in_range lo hi c = true <-> lo <= c <= hi.
Proof. unfold in_range. rewrite andb_true_iff, !Z.leb_le. tauto. Qed.

Lemma in_range_decimal (lo hi c : Z) :
  48 <= lo -> hi <= 57 -> in_range lo hi c = true -> isdecimal_char c = true.
Proof.
  intros Hlo Hhi H. apply in_range_iff in H.
  apply ascii_digit_isdecimal, ascii_digit_range. lia.
Qed.

Lemma day_field_cases (D : pystr) :
  day_field D = true ->
  (D <> [] /\ forallb isdecimal_char D = true)
  \/ (exists b, D = [32; b] /\ in_range 49 57 b = true).
Proof.
  destruct D as [|a [|b [|]]]; try discriminate; unfold day_field.
  - intros H. left. split; [discriminate|]. simpl.
    now rewrite (in_range_decimal 49 57 a ltac:(lia) ltac:(lia) H).
  - rewrite !orb_true_iff, !andb_true_iff, !Z.eqb_eq.
    intros [[[[-> H]|[Ha H]]|[-> H]]|[-> H]].
    + left. split; [discriminate|]. simpl.
      now rewrite (in_range_decimal 48 49 b ltac:(lia) ltac:(lia) H).
    + left. split; [discriminate|]. simpl.
      now rewrite (in_range_decimal 49 50 a ltac:(lia) ltac:(lia) Ha), H.
    + left. split; [discriminate|]. simpl.
      now rewrite (in_range_decimal 49 57 b ltac:(lia) ltac:(lia) H).
    + right. eauto.
Qed.

Lemma py_int_day (D : pystr) :
  day_field D = true -> py_int D = Ok (digits_value D).
Proof.
  intros H. destruct (day_field_cases D H) as [[Hne Hd]|(b & -> & Hb)].
  - apply py_int_decimals; assumption.
  - pose proof (in_range_decimal 49 57 b ltac:(lia) ltac:(lia) Hb) as Hdec.
    pose proof (decimal_not_space b Hdec) as Hsp.
    destruct (decimal_has_value b Hdec) as [v Hv].
    unfold py_int, strip, digits_value. cbn [lstrip].
    change (isspace_char 32) with true. cbv iota.
    rewrite Hsp. cbn [rev app lstrip]. rewrite Hsp. cbn [rev app int_digits].
    rewrite Hv. cbn [fold_left]. change (decimal_value 32) with (@None Z).
    cbv iota. rewrite Hv. reflexivity.
Qed.

Lemma month_field_decimals (Mo : pystr) :
  month_field Mo = true -> Mo <> [] /\ forallb isdecimal_char Mo = true.
Proof.
  destruct Mo as [|a [|b [|]]]; try discriminate; unfold month_field.
  - intros H. split; [discriminate|]. simpl.
    now rewrite (in_range_decimal 49 57 a ltac:(lia) ltac:(lia) H).
  - rewrite !orb_true_iff, !andb_true_iff, !Z.eqb_eq.
    intros [[-> H]|[-> H]]; (split; [discriminate|]); simpl.
    + now rewrite (in_range_decimal 48 50 b ltac:(lia) ltac:(lia) H).
    + now rewrite (in_range_decimal 49 57 b ltac:(lia) ltac:(lia) H).
Qed.

Lemma year_field_decimals (Y : pystr) :
  year_field Y = true -> Y <> [] /\ forallb isdecimal_char Y = true.
Proof.
  destruct Y as [|a [|b [|c [|d [|]]]]]; try discriminate; unfold year_field.
  rewrite !andb_true_iff. intros [[[Ha Hb] Hc] Hd].
  split; [discriminate|]. simpl. now rewrite Ha, Hb, Hc, Hd.
Qed.

Ltac step_cmp :=
  match goal with
  | |- context [?a <=? ?b] => destruct (Z.leb_spec a b); try lia
  | |- context [?a =? ?b] => destruct (Z.eqb_spec a b); try lia
  end;
  cbn [try_alts match_seq cmatch app andb].

(** A day field followed by a dot is matched by the day group as a
    whole. *)
Lemma re_d_match (D tail : pystr) (k : pystr -> option (found_dict * pystr))
    (found : found_dict) (rest : pystr) :
  day_field D = true -> k (46 :: tail) = Some (found, rest) ->
  try_alts dir_d re_d (D ++ 46 :: tail) k = Some ((dir_d, D) :: found, rest).
Proof.
  intros HD Hk.
  assert (H46 : isdecimal_char 46 = false) by reflexivity.
  destruct D as [|a [|b [|]]]; try discriminate; unfold day_field in HD.
  - apply in_range_iff in HD. unfold re_d.
    cbn [try_alts match_seq cmatch app andb]. rewrite H46.
    repeat step_cmp; now rewrite ?Hk.
  - rewrite !orb_true_iff, !andb_true_iff, !Z.eqb_eq, !in_range_iff in HD.
    unfold re_d. cbn [try_alts match_seq cmatch app andb].
    destruct HD as [[[[-> H]|[Ha H]]|[-> H]]|[-> H]].
    + repeat step_cmp; now rewrite Hk.
    + rewrite H. repeat step_cmp; now rewrite ?Hk.
    + destruct (isdecimal_char b); repeat step_cmp; now rewrite ?Hk.
    + destruct (isdecimal_char b); repeat step_cmp; now rewrite ?Hk.
Qed.

Lemma re_m_match (Mo tail : pystr) (k : pystr -> option (found_dict * pystr))
    (found : found_dict) (rest : pystr) :
  month_field Mo = true -> k (46 :: tail) = Some (found, rest) ->
  try_alts dir_m re_m (Mo ++ 46 :: tail) k = Some ((dir_m, Mo) :: found, rest).
Proof.
  intros HM Hk.
  destruct Mo as [|a [|b [|]]]; try discriminate; unfold month_field in HM.
  - apply in_range_iff in HM. unfold re_m.
    cbn [try_alts match_seq cmatch app andb].
    repeat step_cmp; now rewrite ?Hk.
  - rewrite !orb_true_iff, !andb_true_iff, !Z.eqb_eq, !in_range_iff in HM.
    unfold re_m. cbn [try_alts match_seq cmatch app andb].
    destruct HM as [[-> H]|[-> H]]; repeat step_cmp; now rewrite ?Hk.
Qed.

Lemma re_Y_match (Y : pystr) :
  year_field Y = true ->
  try_alts dir_Y re_Y Y (rx_match []) = Some ([(dir_Y, Y)], []).
Proof.
  destruct Y as [|a [|b [|c [|d [|]]]]]; try discriminate; unfold year_field.
  rewrite !andb_true_iff. intros [[[Ha Hb] Hc] Hd].
  unfold re_Y. cbn [try_alts match_seq cmatch]. rewrite Ha, Hb, Hc, Hd.
  reflexivity.
Qed.

Ltac invert_Forall2 :=
  repeat match goal with
         | H : Forall2 _ (_ :: _) _ |- _ => inversion H; subst; clear H
         | H : Forall2 _ [] _ |- _ => inversion H; subst; clear H
         end;
  cbn [cmatch] in *;
  repeat match goal with
         | H : context [(?lo <=? ?c) && (?c <=? ?hi)] |- _ =>
             change ((lo <=? c) && (c <=? hi)) with (in_range lo hi c) in H
         end.

Lemma re_d_field (alt : list cclass) (D : pystr) :
  In alt re_d -> Forall2 (fun cl c => cmatch cl c = true) alt D ->
  day_field D = true.
Proof.
  simpl. intros [<-|[<-|[<-|[<-|[<-|[]]]]]] H; invert_Forall2;
    unfold day_field; rewrite ?orb_true_iff, ?andb_true_iff; tauto.
Qed.

Lemma re_m_field (alt : list cclass) (Mo : pystr) :
  In alt re_m -> Forall2 (fun cl c => cmatch cl c = true) alt Mo ->
  month_field Mo = true.
Proof.
  simpl. intros [<-|[<-|[<-|[]]]] H; invert_Forall2;
    unfold month_field; rewrite ?orb_true_iff, ?andb_true_iff; tauto.
Qed.

Lemma re_Y_field (Y : pystr) :
  Forall2 (fun cl c => cmatch cl c = true) [Dec; Dec; Dec; Dec] Y ->
  year_field Y = true.
Proof.
  intros H. invert_Forall2. unfold year_field.
  rewrite !andb_true_iff. tauto.
Qed.

(** [strptime] returns a date exactly for the texts of [birthday_text]. *)
Lemma strptime_accepts (s : pystr) (dt : date) :
  birthday_text s dt -> strptime s = Ok dt.
Proof.
  intros (D & Mo & Y & -> & HD & HM & HY & -> & Hv).
  unfold strptime, format_regex.
  assert (HYm : rx_match [Literal 46; Group dir_Y re_Y] (46 :: Y)
                = Some ([(dir_Y, Y)], [])).
  { cbn [rx_match]. rewrite Z.eqb_refl. apply re_Y_match, HY. }
  assert (HMm : rx_match [Literal 46; Group dir_m re_m; Literal 46;
                          Group dir_Y re_Y] (46 :: Mo ++ 46 :: Y)
                = Some ([(dir_m, Mo); (dir_Y, Y)], [])).
  { cbn [rx_match]. rewrite Z.eqb_refl. apply re_m_match; assumption. }
  rewrite rx_match_group.
  change (D ++ [46] ++ Mo ++ [46] ++ Y) with (D ++ 46 :: Mo ++ 46 :: Y).
  rewrite (re_d_match D _ _ _ _ HD HMm).
  cbn [read_groups]. rewrite (py_int_day D HD). cbn [rbind].
  destruct (month_field_decimals Mo HM) as [HMne HMd].
  destruct (year_field_decimals Y HY) as [HYne HYd].
  rewrite (py_int_decimals Mo HMne HMd). cbn [rbind].
  rewrite (py_int_decimals Y HYne HYd). cbn [rbind].
  apply date_new_ok. exact Hv.
Qed.

Lemma strptime_accepted (s : pystr) (dt : date) :
  strptime s = Ok dt -> birthday_text s dt.
Proof.
  intros H. pose proof (strptime_valid s dt H) as Hv. unfold strptime in H.
  destruct (rx_match format_regex s) as [[found rest]|] eqn:E;
    [|discriminate].
  destruct rest; [|discriminate].
  apply rx_match_format_inv in E.
  destruct E as (aD & aM & D & Mo & Y & HaD & HaM & HD & HM & HY & -> & ->).
  pose proof (re_d_field aD D HaD HD) as HDf.
  pose proof (re_m_field aM Mo HaM HM) as HMf.
  pose proof (re_Y_field Y HY) as HYf.
  cbn [read_groups] in H. rewrite (py_int_day D HDf) in H. cbn [rbind] in H.
  destruct (month_field_decimals Mo HMf) as [HMne HMd].
  destruct (year_field_decimals Y HYf) as [HYne HYd].
  rewrite (py_int_decimals Mo HMne HMd) in H. cbn [rbind] in H.
  rewrite (py_int_decimals Y HYne HYd) in H. cbn [rbind] in H.
  apply date_new_inv in H. destruct H as [-> _].
  exists D, Mo, Y. rewrite app_nil_r. repeat split; auto.
Qed.

Lemma Birthday_new_iff (s : pystr) (b : Birthday) :
  Birthday_new s = Ok b <-> birthday_text s (value b).
Proof.
  split.
  - intros H. apply strptime_accepted, Birthday_new_inv, H.
  - intros H. apply strptime_accepts, Birthday_new_ok in H.
    now destruct b.
Qed.

Lemma Birthday_new_rejects (s : pystr) :
  (forall dt, ~ birthday_text s dt) ->
  Birthday_new s = Raise (ValueError (lit "Invalid birthday format")).
Proof.
  intros H. destruct (Birthday_new_cases s) as [(b & Hb & _)|Hr]; [|exact Hr].
  exfalso. apply (H (value b)). apply Birthday_new_iff, Hb.
Qed.

(** C4, as the code has it. [Birthday] accepts a text exactly when it
    is a day, a dot, a month, a dot and a year in one of the spellings
    of [birthday_text] and these denote a valid calendar date, which it
    stores; every other text raises [ValueError("Invalid birthday
    format")].  The zero-padded DD.MM.YYYY text of every valid date is
    accepted, and formatting the stored date with DD.MM.YYYY gives the
    input back exactly when the input is in the strict form (the year
    being at least 1000, or zero-padded by the C library).  The texts
    "30.02.2020", "31.02.2021", "01.13.2020", "2021.02.01" and the
    empty text are among those that raise. *)
Theorem birthday_parse_and_format :
  (forall s b, Birthday_new s = Ok b <-> birthday_text s (value b))
  /\ (forall s,
        (forall dt, ~ birthday_text s dt) ->
        Birthday_new s = Raise (ValueError (lit "Invalid birthday format")))
  /\ Forall (fun s => Birthday_new s
                      = Raise (ValueError (lit "Invalid birthday format")))
       [lit "30.02.2020"; lit "31.02.2021"; lit "01.13.2020";
        lit "2021.02.01"; []]
  /\ (forall dt, valid_date dt = true ->
        Birthday_new (strftime_dmY true dt) = Ok (mkField dt))
  /\ (forall s b, Birthday_new s = Ok b ->
        valid_date (value b) = true
        /\ forall pad_year,
             pad_year = true \/ 1000 <= year (value b) ->
             (strftime_dmY pad_year (value b) = s <-> strict_form s = true)).
Proof.
  split; [exact Birthday_new_iff|].
  split; [exact Birthday_new_rejects|].
  split; [repeat constructor|].
  split.
  - intros dt Hv. apply Birthday_new_ok, strptime_canonical, Hv.
  - intros s b H. apply Birthday_new_inv in H.
    pose proof (strptime_valid _ _ H) as Hv. split; [exact Hv|].
    intros pad_year Hpad.
    rewrite (strftime_pad_irrelevant pad_year _ Hv Hpad). split.
    + intros <-. apply strftime_strict, Hv.
    + intros Hs. apply strptime_strict; assumption.
Qed.

Lemma unpack2_cases (args : list pystr) :
  (exists a b, args = [a; b] /\ unpack2 args = Ok (a, b))
  \/ (exists msg, unpack2 args = Raise (ValueError msg)).
Proof.
  destruct args as [|a [|b [|c rest]]]; simpl; eauto.
Qed.

Lemma item0_cases {A} (xs : list A) :
  (exists x rest, xs = x :: rest /\ item0 xs = Ok x)
  \/ (xs = [] /\ item0 xs = Raise (IndexError (lit "list index out of range"))).
Proof. destruct xs; simpl; eauto. Qed.

Lemma dict_contains_get {V} (k : pystr) (d : dict V) :
  dict_contains k d = true -> exists v, dict_get k d = Some v.
Proof. unfold dict_contains. destruct (dict_get k d); [eauto|discriminate]. Qed.

Lemma dict_contains_false {V} (k : pystr) (d : dict V) :
  dict_contains k d = false -> dict_get k d = None.
Proof. unfold dict_contains. destruct (dict_get k d); [discriminate|auto]. Qed.

(** What each wrapped function returns and does to the book, case by
    case. *)
Lemma add_contact_safely_eq (args : list pystr) (book : AddressBook) :
  add_contact_safely args book
  = match unpack2 args with
    | Raise e => (Ok (str_exn e), book)
    | Ok (nm, phone) =>
        if dict_contains nm book
        then (Ok (repr (lit "Contact already exists.")), book)
        else if Phone_validate phone
        then (Ok (lit "Contact added."),
              add_record {| name := mkField nm; phones := [mkField phone];
                            birthday := None |} book)
        else (Ok (lit "Invalid phone format"), book)
    end.
Proof.
  bot_unfold.
  destruct (unpack2_cases args) as [(nm & phone & _ & ->)|(msg & ->)];
    [|reflexivity].
  destruct (dict_contains nm book); [reflexivity|].
  unfold add_phone, Phone_new. destruct (Phone_validate phone); reflexivity.
Qed.

Lemma change_contact_safely_eq (args : list pystr) (book : AddressBook) :
  change_contact_safely args book
  = match unpack2 args with
    | Raise e => (Ok (str_exn e), book)
    | Ok (nm, phone) =>
        match dict_get nm book with
        | None => (Ok (repr (lit "Contact not found.")), book)
        | Some record =>
            match phones record with
            | [] => (Ok (lit "list index out of range"), book)
            | _ :: others =>
                (Ok (lit "Contact updated."),
                 dict_set nm {| name := name record;
                                phones := mkField phone :: others;
                                birthday := birthday record |} book)
            end
        end
    end.
Proof.
  bot_unfold.
  destruct (unpack2_cases args) as [(nm & phone & _ & ->)|(msg & ->)];
    [|reflexivity].
  unfold dict_contains, getitem.
  destruct (dict_get nm book) as [record|]; [|reflexivity].
  destruct (phones record); reflexivity.
Qed.

Lemma get_phone_safely_eq (args : list pystr) (book : AddressBook) :
  get_phone_safely args book
  = match args with
    | [] => (Ok (lit "list index out of range"), book)
    | nm :: _ =>
        match dict_get nm book with
        | None => (Ok (repr (lit "Contact not found.")), book)
        | Some record =>
            match phones record with
            | [] => (Ok (lit "list index out of range"), book)
            | p :: _ => (Ok (value p), book)
            end
        end
    end.
Proof.
  bot_unfold. destruct args as [|nm rest]; [reflexivity|].
  unfold dict_contains, getitem. simpl.
  destruct (dict_get nm book) as [record|]; [|reflexivity].
  destruct (phones record); reflexivity.
Qed.

Lemma add_birthday_safely_eq (args : list pystr) (book : AddressBook) :
  add_birthday_safely args book
  = match unpack2 args with
    | Raise e => (Ok (str_exn e), book)
    | Ok (nm, date) =>
        match dict_get nm book with
        | None => (Ok (repr (lit "Contact not found.")), book)
        | Some record =>
            match Birthday_new date with
            | Ok b =>
                (Ok (lit "Birthday added."),
                 dict_set nm {| name := name record;
                                phones := phones record;
                                birthday := Some b |} book)
            | Raise _ => (Ok (lit "Invalid birthday format"), book)
            end
        end
    end.
Proof.
  bot_unfold.
  destruct (unpack2_cases args) as [(nm & date & _ & ->)|(msg & ->)];
    [|reflexivity].
  unfold dict_contains, getitem.
  destruct (dict_get nm book) as [record|]; [|reflexivity].
  unfold add_birthday.
  destruct (Birthday_new_cases date) as [(b & -> & _)| ->]; reflexivity.
Qed.

Lemma show_birthday_safely_eq (pad_year : bool) (args : list pystr)
    (book : AddressBook) :
  show_birthday_safely pad_year args book
  = match args with
    | [] => (Ok (lit "list index out of range"), book)
    | nm :: _ =>
        match dict_get nm book with
        | Some {| birthday := Some b |} =>
            (Ok (strftime_dmY pad_year (value b)), book)
        | _ => (Ok (repr (lit "Contact or birthday not found.")), book)
        end
    end.
Proof.
  bot_unfold. destruct args as [|nm rest]; [reflexivity|].
  unfold has_birthday, getitem. simpl.
  destruct (dict_get nm book) as [[n ps [b|]]|]; reflexivity.
Qed.

Lemma contact_lines_ok (book : AddressBook) :
  all_have_phone book -> exists lines, contact_lines book = Ok lines.
Proof.
  unfold all_have_phone. induction book as [|[nm record] book IH]; simpl.
  - eauto.
  - intros H. destruct (phones record) as [|p ps] eqn:E.
    + exfalso. apply (H nm record); auto.
    + simpl. destruct IH as [lines ->]; [intros k r Hin; eauto|].
      simpl. eauto.
Qed.

Lemma show_all_contacts_ok (book : AddressBook) :
  all_have_phone book -> exists s, show_all_contacts book = Ok s.
Proof.
  intros H. unfold show_all_contacts. destruct book as [|kr book]; [eauto|].
  destruct (contact_lines_ok _ H) as [lines ->]. simpl. eauto.
Qed.

Lemma show_birthdays_next_week_ok (today : date) (book : AddressBook) :
  forallb (record_occurs today) (dict_values book) = true ->
  exists s, show_birthdays_next_week today book = Ok s.
Proof.
  intros H. unfold show_birthdays_next_week, get_birthdays_per_week.
  destruct (for_records_ok today (dict_values book) [] H) as (g & -> & _).
  simpl. destruct g; eauto.
Qed.

(** C5, as the code has it. The five functions wrapped by [input_error]
    return a text for every argument list and every address book;
    [show_all_contacts] returns a text when every record has a phone, and
    [show_birthdays_next_week] when the dates of all birthdays exist. *)
Theorem wrapped_functions_return_text (pad_year : bool) (args : list pystr)
    (book : AddressBook) :
  (exists s book', add_contact_safely args book = (Ok s, book'))
  /\ (exists s book', change_contact_safely args book = (Ok s, book'))
  /\ (exists s book', get_phone_safely args book = (Ok s, book'))
  /\ (exists s book', add_birthday_safely args book = (Ok s, book'))
  /\ (exists s book', show_birthday_safely pad_year args book = (Ok s, book'))
  /\ (all_have_phone book -> exists s, show_all_contacts book = Ok s)
  /\ (forall today,
        forallb (record_occurs today) (dict_values book) = true ->
        exists s, show_birthdays_next_week today book = Ok s).
Proof.
  repeat apply conj.
  - rewrite add_contact_safely_eq.
    destruct (unpack2 args) as [[nm phone]|e]; [|eauto].
    destruct (dict_contains nm book); [eauto|].
    destruct (Phone_validate phone); eauto.
  - rewrite change_contact_safely_eq.
    destruct (unpack2 args) as [[nm phone]|e]; [|eauto].
    destruct (dict_get nm book) as [record|]; [|eauto].
    destruct (phones record); eauto.
  - rewrite get_phone_safely_eq. destruct args as [|nm rest]; [eauto|].
    destruct (dict_get nm book) as [record|]; [|eauto].
    destruct (phones record); eauto.
  - rewrite add_birthday_safely_eq.
    destruct (unpack2 args) as [[nm date]|e]; [|eauto].
    destruct (dict_get nm book) as [record|]; [|eauto].
    destruct (Birthday_new date); eauto.
  - rewrite show_birthday_safely_eq. destruct args as [|nm rest]; [eauto|].
    destruct (dict_get nm book) as [[n ps [b|]]|]; eauto.
  - apply show_all_contacts_ok.
  - intros today. apply show_birthdays_next_week_ok.
Qed.

(** C5, counterexample. After "add Bob 1234567890" and "add-birthday Bob
    29.02.2020", the command "birthdays" given on 1 March 2023 raises a
    [ValueError] that nothing catches; and [show_all_contacts] raises an
    [IndexError] on a book holding a record without a phone. *)
Lemma birthdays_command_raises :
  (forall pad_year, reachable pad_year bob_leap_book)
  /\ show_birthdays_next_week (mkdate 2023 3 1) bob_leap_book
     = Raise (ValueError (lit "day is out of range for month"))
  /\ (forall pad_year,
        fst (run_command pad_year (cmd_birthdays (mkdate 2023 3 1))
               bob_leap_book)
        = Raise (ValueError (lit "day is out of range for month")))
  /\ show_all_contacts (add_record (Record_new (lit "Bob")) [])
     = Raise (IndexError (lit "list index out of range")).
Proof.
  split; [|split; [reflexivity | split; [intros; reflexivity | reflexivity]]].
  intros pad_year.
  apply (reach_command pad_year
           (cmd_add_birthday [lit "Bob"; lit "29.02.2020"]) bob_book).
  apply (reach_command pad_year
           (cmd_add [lit "Bob"; lit "1234567890"]) []).
  apply reach_empty.
Qed.

(** Adding a contact: an existing name changes nothing, a new name with a
    valid phone puts a new record last. *)
Lemma add_contact_existing (nm phone : pystr) (book : AddressBook) :
  dict_contains nm book = true ->
  add_contact_safely [nm; phone] book
  = (Ok (lit "'Contact already exists.'"), book).
Proof. intros H. rewrite add_contact_safely_eq. simpl. now rewrite H. Qed.

Lemma add_contact_fresh (nm phone : pystr) (book : AddressBook) :
  dict_contains nm book = false -> Phone_validate phone = true ->
  add_contact_safely [nm; phone] book
  = (Ok (lit "Contact added."),
     book ++ [(nm, {| name := mkField nm; phones := [mkField phone];
                      birthday := None |})]).
Proof.
  intros H Hp. rewrite add_contact_safely_eq. simpl. rewrite H, Hp.
  unfold add_record. simpl.
  rewrite dict_set_fresh by (apply dict_contains_false, H). reflexivity.
Qed.

(** C6, the code at a failing input. With "Bob" already in the book,
    adding "Bob" again leaves the book as it was, but the text returned
    is the message inside single quotes, not the message itself. *)
Theorem add_contact_duplicate_text :
  add_contact_safely [lit "Bob"; lit "0987654321"] bob_book
  = (Ok (lit "'Contact already exists.'"), bob_book)
  /\ lit "'Contact already exists.'" <> lit "Contact already exists."
  /\ str_exn (ValueError (lit "Contact already exists."))
     = lit "Contact already exists.".
Proof. split; [reflexivity|]. split; [discriminate | reflexivity]. Qed.

(** Changing a contact: the first phone takes the new text, whatever it
    is; the rest of the record, the other entries and the order of the
    book stay. *)
Lemma change_contact_overwrites (nm phone : pystr) (book : AddressBook)
    (record : Record_) (p : Phone) (others : list Phone) :
  dict_get nm book = Some record -> phones record = p :: others ->
  exists book',
    change_contact_safely [nm; phone] book = (Ok (lit "Contact updated."), book')
    /\ dict_get nm book'
       = Some {| name := name record; phones := mkField phone :: others;
                 birthday := birthday record |}
    /\ (forall k, k <> nm -> dict_get k book' = dict_get k book)
    /\ dict_keys book' = dict_keys book.
Proof.
  intros Hget Hp. rewrite change_contact_safely_eq. simpl.
  rewrite Hget, Hp. eexists. split; [reflexivity|].
  split; [|split].
  - rewrite dict_get_set, str_eqb_refl. reflexivity.
  - intros k Hk. rewrite dict_get_set.
    apply str_eqb_neq in Hk. now rewrite Hk.
  - apply dict_keys_set_present. congruence.
Qed.

(** C7, the code at a failing input. Changing a contact that is not in
    the book returns the message inside single quotes, not the message
    itself. *)
Theorem change_contact_missing_text :
  change_contact_safely [lit "Bob"; lit "1234567890"] []
  = (Ok (lit "'Contact not found.'"), [])
  /\ lit "'Contact not found.'" <> lit "Contact not found."
  /\ fst (change_contact_body [lit "Bob"; lit "1234567890"] [])
     = Raise (KeyError (lit "Contact not found.")).
Proof. split; [reflexivity|]. split; [discriminate | reflexivity]. Qed.

(** ** Invariants of the address book *)

(** A command leaves the book as it is, adds a record with one phone
    under a new name, or replaces the record under a name by one with the
    same name that still has a first phone if it had one. *)
Lemma run_command_effect (pad_year : bool) (c : command) (book : AddressBook) :
  snd (run_command pad_year c book) = book
  \/ (exists nm phone,
        dict_get nm book = None
        /\ snd (run_command pad_year c book)
           = add_record {| name := mkField nm; phones := [mkField phone];
                           birthday := None |} book)
  \/ (exists nm record record',
        dict_get nm book = Some record
        /\ name record' = name record
        /\ (phones record <> [] -> phones record' <> [])
        /\ snd (run_command pad_year c book) = dict_set nm record' book).
Proof.
  destruct c as [args|args|args| |args|args|today]; simpl.
  - rewrite add_contact_safely_eq.
    destruct (unpack2 args) as [[nm phone]|e]; [|auto].
    destruct (dict_contains nm book) eqn:E; [auto|].
    destruct (Phone_validate phone); [|auto].
    right; left. exists nm, phone. split; [|reflexivity].
    apply dict_contains_false, E.
  - rewrite change_contact_safely_eq.
    destruct (unpack2 args) as [[nm phone]|e]; [|auto].
    destruct (dict_get nm book) as [record|] eqn:E; [|auto].
    destruct (phones record) as [|p others] eqn:Ep; [auto|].
    right; right. eexists nm, record, _. split; [exact E|].
    split; [|split; [|reflexivity]]; simpl; [reflexivity | discriminate].
  - rewrite get_phone_safely_eq. destruct args as [|nm rest]; [auto|].
    destruct (dict_get nm book) as [record|]; [|auto].
    destruct (phones record); auto.
  - auto.
  - rewrite add_birthday_safely_eq.
    destruct (unpack2 args) as [[nm date]|e]; [|auto].
    destruct (dict_get nm book) as [record|] eqn:E; [|auto].
    destruct (Birthday_new date) as [b|]; [|auto].
    right; right. eexists nm, record, _. split; [exact E|].
    split; [|split; [|reflexivity]]; simpl; [reflexivity | auto].
  - rewrite show_birthday_safely_eq. destruct args as [|nm rest]; [auto|].
    destruct (dict_get nm book) as [[n ps [b|]]|]; auto.
  - auto.
Qed.

Lemma keyed_by_name_set (record : Record_) (book : AddressBook) :
  keyed_by_name book ->
  keyed_by_name (dict_set (value (name record)) record book).
Proof.
  intros H k r Hin. apply In_dict_set in Hin.
  destruct Hin as [Hin|[-> ->]]; [eauto | reflexivity].
Qed.

Lemma keyed_by_name_command (pad_year : bool) (c : command)
    (book : AddressBook) :
  keyed_by_name book -> keyed_by_name (snd (run_command pad_year c book)).
Proof.
  intros H.
  destruct (run_command_effect pad_year c book)
    as [->|[(nm & phone & _ & ->)|(nm & record & record' & Hget & Hn & _ & ->)]].
  - exact H.
  - apply keyed_by_name_set, H.
  - apply dict_get_In in Hget. apply H in Hget.
    rewrite <- Hget, <- Hn. apply keyed_by_name_set, H.
Qed.

Lemma reachable_keyed_by_name (pad_year : bool) (book : AddressBook) :
  reachable_by_calls pad_year book -> keyed_by_name book.
Proof.
  induction 1 as [|c book _ IH].
  - intros k r [].
  - destruct c as [record|nm|nm|c]; simpl.
    + apply keyed_by_name_set, IH.
    + exact IH.
    + unfold delete. destruct (dict_contains nm book); [|exact IH].
      intros k r Hin. apply In_dict_del in Hin. eauto.
    + apply keyed_by_name_command, IH.
Qed.

(** C8. In every address book reachable through [add_record], [find],
    [delete] and the commands, each record is stored under the key that
    equals its own [name.value]; each of these calls keeps it so. *)
Theorem records_stored_under_their_name (pad_year : bool)
    (book : AddressBook) :
  reachable_by_calls pad_year book ->
  keyed_by_name book
  /\ forall c, keyed_by_name (run_call pad_year c book).
Proof.
  intros H. split; [exact (reachable_keyed_by_name _ _ H)|].
  intros c.
  exact (reachable_keyed_by_name pad_year _ (calls_step pad_year c book H)).
Qed.

Lemma all_have_phone_command (pad_year : bool) (c : command)
    (book : AddressBook) :
  all_have_phone book -> all_have_phone (snd (run_command pad_year c book)).
Proof.
  intros H.
  destruct (run_command_effect pad_year c book)
    as [->|[(nm & phone & _ & ->)|(nm & record & record' & Hget & _ & Hp & ->)]].
  - exact H.
  - intros k r Hin. apply In_dict_set in Hin.
    destruct Hin as [Hin|[_ ->]]; [eauto | discriminate].
  - intros k r Hin. apply In_dict_set in Hin.
    destruct Hin as [Hin|[_ ->]]; [eauto|].
    apply Hp. apply dict_get_In in Hget. eauto.
Qed.

Lemma reachable_all_have_phone (pad_year : bool) (book : AddressBook) :
  reachable pad_year book -> all_have_phone book.
Proof.
  induction 1 as [|c book _ IH].
  - intros k r [].
  - apply all_have_phone_command, IH.
Qed.

(** C10. In every address book reachable through the commands alone each
    record has a first phone: [show_all_contacts] returns its text, and
    for a name in the book [get_phone_safely] returns the first phone and
    [change_contact_safely] overwrites it. *)
Theorem commands_keep_first_phone (pad_year : bool) (book : AddressBook) :
  reachable pad_year book ->
  all_have_phone book
  /\ (exists s, show_all_contacts book = Ok s)
  /\ forall nm record,
       dict_get nm book = Some record ->
       exists p others,
         phones record = p :: others
         /\ (forall rest,
               get_phone_safely (nm :: rest) book = (Ok (value p), book))
         /\ (forall phone,
               change_contact_safely [nm; phone] book
               = (Ok (lit "Contact updated."),
                  dict_set nm {| name := name record;
                                 phones := mkField phone :: others;
                                 birthday := birthday record |} book)).
Proof.
  intros Hreach. pose proof (reachable_all_have_phone _ _ Hreach) as Hall.
  split; [exact Hall|]. split; [apply show_all_contacts_ok, Hall|].
  intros nm record Hget.
  destruct (phones record) as [|p others] eqn:Ep.
  - exfalso. apply dict_get_In in Hget. exact (Hall _ _ Hget Ep).
  - exists p, others. split; [reflexivity|]. split.
    + intros rest. rewrite get_phone_safely_eq, Hget, Ep. reflexivity.
    + intros phone. rewrite change_contact_safely_eq. simpl.
      rewrite Hget, Ep. reflexivity.
Qed.

(** X17. A birthday added in the strict form is shown by
    [show_birthday_safely] exactly as it was typed. *)
Lemma show_birthday_after_add (pad_year : bool) (nm date : pystr)
    (book : AddressBook) (record : Record_) (b : Birthday) :
  dict_get nm book = Some record ->
  Birthday_new date = Ok b -> strict_form date = true ->
  pad_year = true \/ 1000 <= year (value b) ->
  exists book',
    add_birthday_safely [nm; date] book = (Ok (lit "Birthday added."), book')
    /\ show_birthday_safely pad_year [nm] book' = (Ok date, book').
Proof.
  intros Hget Hb Hs Hpad. rewrite add_birthday_safely_eq. simpl.
  rewrite Hget, Hb. eexists. split; [reflexivity|].
  rewrite show_birthday_safely_eq, dict_get_set, str_eqb_refl.
  pose proof (Birthday_new_inv _ _ Hb) as Hp.
  rewrite (strftime_pad_irrelevant _ _ (strptime_valid _ _ Hp) Hpad).
  rewrite (strptime_strict _ _ Hs Hp). reflexivity.
Qed.

(** Keys stay distinct, so the names of the records of a reachable book
    are distinct: the assumption of the theorems on the weekly query. *)
Lemma dict_get_None_keys {V} (k : pystr) (d : dict V) :
  dict_get k d = None -> ~ In k (dict_keys d).
Proof.
  unfold dict_keys. induction d as [|[k0 v0] d IH]; simpl; [tauto|].
  destruct (str_eqb k k0) eqn:E; [discriminate|].
  apply str_eqb_neq in E. intros H [H'|H']; [congruence | tauto].
Qed.

Lemma NoDup_dict_set {V} (k : pystr) (v : V) (d : dict V) :
  NoDup (dict_keys d) -> NoDup (dict_keys (dict_set k v d)).
Proof.
  intros H. destruct (dict_get k d) eqn:E.
  - rewrite dict_keys_set_present by congruence. exact H.
  - rewrite dict_set_fresh by exact E. unfold dict_keys in *.
    rewrite map_app. simpl. apply NoDup_app; [exact H | | ].
    + constructor; [intros [] | constructor].
    + intros x Hx [<-|[]]. exact (dict_get_None_keys _ _ E Hx).
Qed.

Lemma NoDup_dict_del {V} (k : pystr) (d : dict V) :
  NoDup (dict_keys d) -> NoDup (dict_keys (dict_del k d)).
Proof.
  unfold dict_keys. induction d as [|[k0 v0] d IH]; simpl; [auto|].
  intros H. inversion H as [|? ? Hnot Hd]; subst.
  destruct (str_eqb k k0); simpl; [exact Hd|].
  constructor; [|auto].
  intros Hin. apply Hnot. apply in_map_iff in Hin.
  destruct Hin as ([k1 v1] & <- & Hin). apply In_dict_del in Hin.
  apply in_map_iff. exists (k1, v1). auto.
Qed.

Lemma reachable_distinct_keys (pad_year : bool) (book : AddressBook) :
  reachable_by_calls pad_year book -> NoDup (dict_keys book).
Proof.
  induction 1 as [|c book _ IH].
  - constructor.
  - destruct c as [record|nm|nm|c]; simpl.
    + apply NoDup_dict_set, IH.
    + exact IH.
    + unfold delete. destruct (dict_contains nm book); [|exact IH].
      apply NoDup_dict_del, IH.
    + destruct (run_command_effect pad_year c book)
        as [->|[(nm & phone & _ & ->)|(nm & r & r' & _ & _ & _ & ->)]];
        [exact IH | apply NoDup_dict_set, IH ..].
Qed.

Lemma reachable_distinct_names (pad_year : bool) (book : AddressBook) :
  reachable_by_calls pad_year book -> NoDup (record_names book).
Proof.
  intros H. pose proof (reachable_distinct_keys _ _ H) as Hk.
  pose proof (reachable_keyed_by_name _ _ H) as Hn.
  replace (record_names book) with (dict_keys book); [exact Hk|].
  unfold record_names, dict_keys, dict_values. rewrite map_map.
  apply map_ext_in. intros [k r] Hin. simpl. symmetry. exact (Hn k r Hin).
Qed.

(** [find] and [delete] on a name that is not in the book. *)
Lemma find_absent_delete_noop (nm : pystr) (book : AddressBook) :
  dict_contains nm book = false ->
  find nm book = None /\ delete nm book = book.
Proof.
  intros H. unfold find, delete. rewrite H.
  split; [apply dict_contains_false, H | reflexivity].
Qed.

(** ** The theorems at concrete inputs *)

(** On Tuesday 3 November 2026, with Ann born on 6 November and Eve on
    8 November. *)
Lemma birthdays_week_window_witness :
  valid_date (mkdate 2026 11 3) = true
  /\ NoDup (record_names week_book)
  /\ forallb (record_occurs (mkdate 2026 11 3)) (dict_values week_book) = true
  /\ exists g,
       get_birthdays_per_week (mkdate 2026 11 3) week_book = Ok g
       /\ forall record b,
            In record (dict_values week_book) -> birthday record = Some b ->
            (listed (value (name record)) g
             <-> 0 <= days_to_next (mkdate 2026 11 3) (value b) < 7)
            /\ (days_to_next (mkdate 2026 11 3) (value b) = 0
                -> listed (value (name record)) g).
Proof.
  assert (H1 : valid_date (mkdate 2026 11 3) = true) by reflexivity.
  assert (H2 : NoDup (record_names week_book)).
  { vm_compute. constructor.
    - simpl. intros [H|[]]. discriminate.
    - constructor; [intros [] | constructor]. }
  assert (H3 : forallb (record_occurs (mkdate 2026 11 3))
                 (dict_values week_book) = true) by reflexivity.
  exact (conj H1 (conj H2 (conj H3
           (birthdays_week_window (mkdate 2026 11 3) week_book H1 H2 H3)))).
Defined.

Lemma weekend_grouped_under_monday_witness :
  weekday (next_occurrence (mkdate 2026 11 3) (mkdate 1985 11 8)) = 6
  /\ grouped_only_under (lit "Monday") (lit "Eve")
       [(lit "Friday", [lit "Ann"]); (lit "Monday", [lit "Eve"])].
Proof.
  split; [reflexivity|].
  refine (proj1 (weekend_grouped_under_monday (mkdate 2026 11 3) week_book
                   [(lit "Friday", [lit "Ann"]); (lit "Monday", [lit "Eve"])]
                   _ _ eve_record (mkField (mkdate 1985 11 8)) _ _ _) _).
  - vm_compute. constructor.
    + simpl. intros [H|[]]. discriminate.
    + constructor; [intros [] | constructor].
  - reflexivity.
  - vm_compute. right; left; reflexivity.
  - reflexivity.
  - exists (lit "Monday"), [lit "Eve"]. split; [reflexivity|].
    left; reflexivity.
  - right. reflexivity.
Defined.

Lemma phone_accepts_ten_digits_witness :
  Phone_new (lit "1234567890") = Ok (mkField (lit "1234567890")).
Proof.
  apply (proj2 (proj2 (proj2 (phone_accepts_ten_digits (lit "1234567890"))))).
  - reflexivity.
  - repeat constructor.
Defined.

Lemma birthday_parse_and_format_witness :
  Birthday_new (lit "1.2.2020") = Ok (mkField (mkdate 2020 2 1))
  /\ Birthday_new [] = Raise (ValueError (lit "Invalid birthday format"))
  /\ Birthday_new (strftime_dmY true (mkdate 2020 2 29))
     = Ok (mkField (mkdate 2020 2 29))
  /\ (strftime_dmY false (mkdate 2020 2 29) = lit "29.02.2020"
      <-> strict_form (lit "29.02.2020") = true).
Proof.
  destruct birthday_parse_and_format as (Hiff & Hno & _ & Hcanon & Hback).
  split; [|split; [|split]].
  - apply Hiff. exists (lit "1"), (lit "2"), (lit "2020").
    repeat split; reflexivity.
  - apply Hno. intros dt (D & Mo & Y & H & _).
    destruct D; discriminate.
  - apply Hcanon. reflexivity.
  - refine (proj2 (Hback (lit "29.02.2020") (mkField (mkdate 2020 2 29)) _)
              false _).
    + reflexivity.
    + right. simpl. lia.
Defined.

Lemma wrapped_functions_return_text_witness :
  (exists s, show_all_contacts bob_leap_book = Ok s)
  /\ (exists s, show_birthdays_next_week (mkdate 2024 2 27) bob_leap_book
                = Ok s).
Proof.
  pose proof (wrapped_functions_return_text true [lit "Bob"] bob_leap_book)
    as (_ & _ & _ & _ & _ & Hall & Hweek).
  split.
  - apply Hall. intros k r [H|[]]. injection H as _ <-. discriminate.
  - apply Hweek. reflexivity.
Defined.

Lemma records_stored_under_their_name_witness : keyed_by_name bob_book.
Proof.
  apply (proj1 (records_stored_under_their_name true bob_book
                  (calls_step true
                     (call_command (cmd_add [lit "Bob"; lit "1234567890"]))
                     [] (calls_empty true)))).
Defined.

Lemma feb29_raises_witness :
  exists msg,
    get_birthdays_per_week (mkdate 2023 3 1) bob_leap_book
    = Raise (ValueError msg)
    /\ show_birthdays_next_week (mkdate 2023 3 1) bob_leap_book
       = Raise (ValueError msg).
Proof.
  apply (feb29_raises (mkdate 2023 3 1) bob_leap_book bob_leap_record
           (mkField (mkdate 2020 2 29))).
  - left. reflexivity.
  - reflexivity.
  - reflexivity.
  - reflexivity.
  - left. reflexivity.
Defined.

Lemma commands_keep_first_phone_witness :
  all_have_phone bob_book
  /\ (exists s, show_all_contacts bob_book = Ok s)
  /\ forall nm record,
       dict_get nm bob_book = Some record ->
       exists p others,
         phones record = p :: others
         /\ (forall rest,
               get_phone_safely (nm :: rest) bob_book
               = (Ok (value p), bob_book))
         /\ (forall phone,
               change_contact_safely [nm; phone] bob_book
               = (Ok (lit "Contact updated."),
                  dict_set nm {| name := name record;
                                 phones := mkField phone :: others;
                                 birthday := birthday record |} bob_book)).
Proof.
  apply (commands_keep_first_phone true bob_book).
  apply (reach_command true (cmd_add [lit "Bob"; lit "1234567890"]) []).
  apply reach_empty.
Defined.

(* ================================================================== *)
(** * Further properties *)

(** ** The grouping of the weekly query *)

Lemma for_records_collect (today : date) (records : list Record_)
    (g : groups) :
  forallb (record_occurs today) records = true ->
  for_records today records g
  = Ok (fold_left (fun acc e => append_to (fst e) (snd e) acc)
          (entries_of today records) g).
Proof.
  revert g. induction records as [|record rest IH]; simpl; intros g H.
  - reflexivity.
  - apply andb_true_iff in H. destruct H as [Hrec Hrest].
    rewrite (visit_ok _ _ _ Hrec). simpl. rewrite (IH _ Hrest).
    rewrite fold_left_app.
    destruct (entry_of today record) as [[wd nm]|]; reflexivity.
Qed.

Lemma query_collect (today : date) (book : AddressBook) (g : groups) :
  get_birthdays_per_week today book = Ok g ->
  g = fold_left (fun acc e => append_to (fst e) (snd e) acc)
        (entries today book) [].
Proof.
  unfold get_birthdays_per_week, entries. intros H.
  pose proof (for_records_inv _ _ _ _ H) as Hocc.
  rewrite (for_records_collect _ _ _ Hocc) in H. now injection H.
Qed.

Lemma group_of_append (wd wd' nm : pystr) (g : groups) :
  group_of wd (append_to wd' nm g)
  = if str_eqb wd' wd then group_of wd g ++ [nm] else group_of wd g.
Proof.
  unfold group_of, append_to.
  destruct (str_eqb wd' wd) eqn:E.
  - apply str_eqb_eq in E. subst wd'.
    destruct (dict_get wd g); rewrite dict_get_set, str_eqb_refl; reflexivity.
  - assert (E' : str_eqb wd wd' = false).
    { apply str_eqb_neq. apply str_eqb_neq in E. congruence. }
    destruct (dict_get wd' g); rewrite dict_get_set, E'; reflexivity.
Qed.

Lemma group_of_collect (wd : pystr) (es : list (pystr * pystr)) (g : groups) :
  group_of wd (fold_left (fun acc e => append_to (fst e) (snd e) acc) es g)
  = group_of wd g
    ++ map snd (filter (fun e => str_eqb (fst e) wd) es).
Proof.
  revert g. induction es as [|[wd' nm] es IH]; intros g; simpl.
  - now rewrite app_nil_r.
  - rewrite IH, group_of_append.
    destruct (str_eqb wd' wd); simpl; [|reflexivity].
    now rewrite <- app_assoc.
Qed.

(** X1. The names under a label of the grouping are the names of the
    records whose next birthday falls in the window and carries that
    label, in the order the records have in the book. *)
Theorem group_in_book_order (today : date) (book : AddressBook) (g : groups) :
  get_birthdays_per_week today book = Ok g ->
  forall wd,
    group_of wd g
    = map snd (filter (fun e => str_eqb (fst e) wd) (entries today book)).
Proof.
  intros H wd. rewrite (query_collect _ _ _ H). apply group_of_collect.
Qed.

Lemma existsb_str_eqb_In (k : pystr) (ks : list pystr) :
  existsb (str_eqb k) ks = true <-> In k ks.
Proof.
  rewrite existsb_exists. split.
  - intros (x & Hin & E). apply str_eqb_eq in E. now subst.
  - intros H. exists k. split; [exact H | apply str_eqb_refl].
Qed.

Lemma dict_get_keys {V} (k : pystr) (d : dict V) :
  In k (dict_keys d) <-> dict_get k d <> None.
Proof.
  split.
  - intros Hin E. exact (dict_get_None_keys _ _ E Hin).
  - unfold dict_keys. induction d as [|[k0 v0] d IH]; simpl; [congruence|].
    destruct (str_eqb k k0) eqn:E; [|auto].
    apply str_eqb_eq in E. auto.
Qed.

Lemma dict_keys_append (wd nm : pystr) (g : groups) :
  dict_keys (append_to wd nm g)
  = if existsb (str_eqb wd) (dict_keys g) then dict_keys g
    else dict_keys g ++ [wd].
Proof.
  unfold append_to.
  destruct (existsb (str_eqb wd) (dict_keys g)) eqn:E.
  - apply existsb_str_eqb_In, dict_get_keys in E.
    destruct (dict_get wd g) eqn:Eg; [|congruence].
    apply dict_keys_set_present. congruence.
  - destruct (dict_get wd g) eqn:Eg.
    + assert (In wd (dict_keys g)) by (apply dict_get_keys; congruence).
      apply existsb_str_eqb_In in H. congruence.
    + rewrite dict_set_fresh by exact Eg. unfold dict_keys.
      now rewrite map_app.
Qed.

Lemma first_seen_ext (seen seen' ks : list pystr) :
  (forall k, In k seen <-> In k seen') ->
  first_seen seen ks = first_seen seen' ks.
Proof.
  revert seen seen'. induction ks as [|k ks IH]; intros seen seen' H; simpl.
  - reflexivity.
  - assert (E : existsb (str_eqb k) seen = existsb (str_eqb k) seen').
    { destruct (existsb (str_eqb k) seen) eqn:E1,
        (existsb (str_eqb k) seen') eqn:E2; auto.
      - apply existsb_str_eqb_In, H, existsb_str_eqb_In in E1. congruence.
      - apply existsb_str_eqb_In, H, existsb_str_eqb_In in E2. congruence. }
    rewrite E. destruct (existsb (str_eqb k) seen').
    + apply IH, H.
    + f_equal. apply IH. intros k'. simpl. rewrite H. tauto.
Qed.

Lemma dict_keys_collect (es : list (pystr * pystr)) (g : groups) :
  dict_keys (fold_left (fun acc e => append_to (fst e) (snd e) acc) es g)
  = dict_keys g ++ first_seen (dict_keys g) (map fst es).
Proof.
  revert g. induction es as [|[wd nm] es IH]; intros g; simpl.
  - now rewrite app_nil_r.
  - rewrite IH, dict_keys_append.
    destruct (existsb (str_eqb wd) (dict_keys g)); [reflexivity|].
    rewrite <- app_assoc. simpl. do 2 f_equal.
    apply first_seen_ext. intros k. rewrite in_app_iff. simpl. tauto.
Qed.

(** X2. The labels of the grouping come in the order in which the
    records of the book first need them, and no label comes twice. *)
Theorem labels_in_first_seen_order (today : date) (book : AddressBook)
    (g : groups) :
  get_birthdays_per_week today book = Ok g ->
  dict_keys g = first_seen [] (map fst (entries today book))
  /\ NoDup (dict_keys g).
Proof.
  intros H. rewrite (query_collect _ _ _ H), dict_keys_collect. simpl.
  split; [reflexivity|].
  generalize (map fst (entries today book)). intros ks.
  assert (Hgen : forall seen,
            NoDup (first_seen seen ks)
            /\ forall k, In k (first_seen seen ks) -> ~ In k seen).
  { induction ks as [|k ks IH]; intros seen; simpl.
    - split; [constructor | intros k []].
    - destruct (existsb (str_eqb k) seen) eqn:E; [apply IH|].
      destruct (IH (k :: seen)) as [Hnd Hnot]. split.
      + constructor; [|exact Hnd]. intros Hin.
        apply (Hnot k Hin). now left.
      + intros k' [<-|Hin].
        * intros Hin. apply existsb_str_eqb_In in Hin. congruence.
        * intros Hs. apply (Hnot k' Hin). now right. }
  apply Hgen.
Qed.

Lemma entries_of_In (today : date) (records : list Record_)
    (e : pystr * pystr) :
  In e (entries_of today records)
  <-> exists record, In record records /\ entry_of today record = Some e.
Proof.
  unfold entries_of. rewrite in_flat_map. split.
  - intros (r & Hin & He). exists r. split; [exact Hin|].
    destruct (entry_of today r); [|contradiction].
    destruct He as [->|[]]. reflexivity.
  - intros (r & Hin & He). exists r. split; [exact Hin|].
    rewrite He. now left.
Qed.

Lemma group_key_working_day (dt : date) : In (group_key dt) working_days.
Proof.
  unfold group_key, weekday.
  pose proof (Z.mod_pos_bound (toordinal dt + 6) 7 ltac:(lia)) as Hw.
  destruct (Z.eqb_spec ((toordinal dt + 6) mod 7) 5); [simpl; auto|].
  destruct (Z.eqb_spec ((toordinal dt + 6) mod 7) 6); [simpl; auto|].
  assert (Hc : (toordinal dt + 6) mod 7 = 0 \/ (toordinal dt + 6) mod 7 = 1
               \/ (toordinal dt + 6) mod 7 = 2 \/ (toordinal dt + 6) mod 7 = 3
               \/ (toordinal dt + 6) mod 7 = 4) by lia.
  destruct Hc as [E|[E|[E|[E|E]]]]; rewrite E; simpl; auto 6.
Qed.

Lemma entries_labels (today : date) (records : list Record_)
    (e : pystr * pystr) :
  In e (entries_of today records) -> In (fst e) working_days.
Proof.
  intros H. apply entries_of_In in H. destruct H as (r & _ & He).
  unfold entry_of in He. destruct (birthday r); [|discriminate].
  destruct (_ <? 7); [|discriminate]. injection He as <-. simpl.
  apply group_key_working_day.
Qed.

Lemma query_labels (today : date) (book : AddressBook) (g : groups) :
  get_birthdays_per_week today book = Ok g ->
  forall wd names,
    In (wd, names) g -> In wd working_days /\ names <> [].
Proof.
  intros H. rewrite (query_collect _ _ _ H). unfold entries.
  assert (Hgen : forall es (acc : groups),
    (forall e, In e es -> In (fst e) working_days) ->
    (forall wd names, In (wd, names) acc ->
       In wd working_days /\ names <> []) ->
    forall wd names,
      In (wd, names)
        (fold_left (fun a e => append_to (fst e) (snd e) a) es acc) ->
      In wd working_days /\ names <> []).
  { induction es as [|[wd0 nm0] es IH]; intros acc Hes Hacc; simpl.
    - exact Hacc.
    - apply IH; [intros e He; apply Hes; now right|].
      intros wd names Hin. unfold append_to in Hin.
      assert (Hwd0 : In wd0 working_days) by (apply (Hes (wd0, nm0)); now left).
      destruct (dict_get wd0 acc); apply In_dict_set in Hin;
        destruct Hin as [Hin|[-> ->]]; auto; split; auto;
        try discriminate.
      intros E. apply app_eq_nil in E. destruct E; discriminate. }
  apply Hgen; [apply entries_labels | intros ? ? []].
Qed.

(** X3. Every label of the grouping is one of "Monday" to "Friday",
    never "Saturday" or "Sunday", and no label has an empty list of
    names. *)
Theorem labels_are_working_days (today : date) (book : AddressBook)
    (g : groups) :
  get_birthdays_per_week today book = Ok g ->
  forall wd names,
    In (wd, names) g ->
    In wd working_days /\ names <> []
    /\ wd <> lit "Saturday" /\ wd <> lit "Sunday".
Proof.
  intros H wd names Hin.
  destruct (query_labels _ _ _ H wd names Hin) as [Hwd Hne].
  repeat split; auto; intros ->; simpl in Hwd;
    repeat (destruct Hwd as [Hwd|Hwd]; [discriminate|]); exact Hwd.
Qed.

Lemma all_names_set (k : pystr) (nm : pystr) (g : groups) :
  Permutation (all_names (append_to k nm g)) (nm :: all_names g).
Proof.
  unfold append_to, all_names.
  induction g as [|[k0 v0] g IH]; simpl.
  - reflexivity.
  - destruct (str_eqb k k0) eqn:E; simpl.
    + rewrite <- app_assoc. simpl. symmetry. apply Permutation_middle.
    + destruct (dict_get k g) eqn:Eg; simpl;
        rewrite IH; symmetry; apply Permutation_middle.
Qed.

Lemma all_names_collect (es : list (pystr * pystr)) (g : groups) :
  Permutation
    (all_names (fold_left (fun a e => append_to (fst e) (snd e) a) es g))
    (all_names g ++ map snd es).
Proof.
  revert g. induction es as [|[wd nm] es IH]; intros g; simpl.
  - now rewrite app_nil_r.
  - rewrite IH, all_names_set. simpl. apply Permutation_middle.
Qed.

Lemma entries_names_NoDup (today : date) (records : list Record_) :
  NoDup (map (fun r => value (name r)) records) ->
  NoDup (map snd (entries_of today records)).
Proof.
  induction records as [|r rest IH]; simpl; intros H.
  - constructor.
  - inversion H as [|? ? Hnot Hnd]; subst. rewrite map_app.
    destruct (entry_of today r) as [[wd nm]|] eqn:E; simpl; [|auto].
    constructor; [|auto]. apply entry_of_name in E. subst nm.
    intros Hin. apply Hnot. apply in_map_iff in Hin.
    destruct Hin as ([wd' nm'] & Hs & Hin). simpl in Hs. subst nm'.
    apply entries_of_In in Hin. destruct Hin as (r' & Hr' & He).
    apply entry_of_name in He. rewrite He.
    apply (in_map (fun r0 => value (name r0))), Hr'.
Qed.

(** X4. The grouping lists each record whose next birthday falls in the
    window once: its names, taken together, are a rearrangement of the
    names of those records, and when the records of the book have
    distinct names no name is listed twice. *)
Theorem each_record_listed_once (today : date) (book : AddressBook)
    (g : groups) :
  get_birthdays_per_week today book = Ok g ->
  Permutation (all_names g) (map snd (entries today book))
  /\ (NoDup (record_names book) -> NoDup (all_names g)).
Proof.
  intros H. rewrite (query_collect _ _ _ H).
  pose proof (all_names_collect (entries today book) []) as Hp.
  simpl in Hp. split; [exact Hp|].
  intros Hnd. eapply Permutation_NoDup; [symmetry; exact Hp|].
  apply entries_names_NoDup. exact Hnd.
Qed.

Lemma is_leap_succ (y : Z) : is_leap y = true -> is_leap (y + 1) = false.
Proof.
  unfold is_leap. intros H. apply andb_true_iff in H. destruct H as [H _].
  apply Z.eqb_eq in H. apply andb_false_iff. left. apply Z.eqb_neq.
  Z.div_mod_to_equations. lia.
Qed.

Ltac decide_comparisons :=
  repeat match goal with
         | |- context [?a <=? ?b] => destruct (Z.leb_spec a b)
         | |- context [?a =? ?b] => destruct (Z.eqb_spec a b)
         end;
  simpl; try reflexivity; try lia.

(** A month and day taken from a valid date fit into a year of the
    calendar unless they are 29 February and the year is not a leap year. *)
Lemma valid_in_year (bday : date) (y : Z) :
  valid_date bday = true -> 1 <= y <= 9999 ->
  valid_ymd y (month bday) (day bday)
  = negb ((month bday =? 2) && (day bday =? 29) && negb (is_leap y)).
Proof.
  destruct bday as [y0 m d]. unfold valid_date. cbn [year month day].
  rewrite valid_ymd_iff. intros (_ & Hm & Hd) Hy.
  unfold valid_ymd, MINYEAR, MAXYEAR.
  each_month m Hm; month_tables;
    destruct (is_leap y0), (is_leap y); decide_comparisons.
Qed.

Lemma occurs_unplaceable (today bday : date) :
  valid_date today = true -> valid_date bday = true ->
  occurs today bday = negb (unplaceable today bday).
Proof.
  intros Ht Hb.
  destruct (valid_date_bounds today Ht) as (Hy & _).
  unfold occurs, unplaceable, next_occurrence, passed, valid_date.
  destruct (date_lt (this_year today bday) today); cbn [year month day this_year].
  - rewrite (valid_in_year bday (year today) Hb Hy).
    destruct (Z.eqb_spec (year today) MAXYEAR) as [E|E]; unfold MAXYEAR in E.
    + assert (Hbig : valid_ymd (year today + 1) (month bday) (day bday) = false).
      { unfold valid_ymd, MAXYEAR.
        destruct (Z.leb_spec (year today + 1) 9999); [lia|].
        now rewrite andb_false_r. }
      rewrite Hbig. rewrite andb_false_r, orb_true_r. reflexivity.
    + rewrite (valid_in_year bday (year today + 1) Hb) by lia.
      destruct ((month bday =? 2) && (day bday =? 29)); simpl; [|reflexivity].
      destruct (is_leap (year today)) eqn:El; simpl; [|reflexivity].
      now rewrite (is_leap_succ _ El).
  - rewrite (valid_in_year bday (year today) Hb Hy).
    rewrite !orb_false_r, !andb_false_r, orb_false_r.
    now rewrite andb_diag.
Qed.

(** X5. With valid dates throughout, [get_birthdays_per_week] returns a
    grouping exactly when no birthday is unplaceable, that is, 29 February
    with the current year not a leap year or the date already passed, or
    a passed date in the year 9999; otherwise it raises a [ValueError]. *)
Theorem query_raises_exactly_when (today : date) (book : AddressBook) :
  valid_date today = true -> birthdays_valid book ->
  ((exists g, get_birthdays_per_week today book = Ok g)
   <-> forall record b,
         In record (dict_values book) -> birthday record = Some b ->
         unplaceable today (value b) = false)
  /\ ((exists msg, get_birthdays_per_week today book = Raise (ValueError msg))
      <-> exists record b,
            In record (dict_values book) /\ birthday record = Some b
            /\ unplaceable today (value b) = true).
Proof.
  intros Ht Hvalid. unfold get_birthdays_per_week.
  assert (Hrec : forall record, In record (dict_values book) ->
            record_occurs today record
            = match birthday record with
              | Some b => negb (unplaceable today (value b))
              | None => true
              end).
  { intros record Hin. unfold record_occurs.
    destruct (birthday record) as [b|] eqn:Eb; [|reflexivity].
    apply occurs_unplaceable; [exact Ht | eapply Hvalid; eauto]. }
  destruct (forallb (record_occurs today) (dict_values book)) eqn:E.
  - destruct (for_records_ok today _ [] E) as (g & Hg & _).
    rewrite forallb_forall in E.
    assert (Hnone : forall record b, In record (dict_values book) ->
              birthday record = Some b -> unplaceable today (value b) = false).
    { intros record b Hin Hb. specialize (E record Hin).
      rewrite (Hrec record Hin), Hb in E.
      now destruct (unplaceable today (value b)). }
    split; split; eauto.
    + intros (msg & Hmsg). congruence.
    + intros (record & b & Hin & Hb & Hu).
      rewrite (Hnone record b Hin Hb) in Hu. discriminate.
  - destruct (for_records_raise today _ [] E) as (msg & Hmsg).
    assert (Hsome : exists record b,
              In record (dict_values book) /\ birthday record = Some b
              /\ unplaceable today (value b) = true).
    { assert (Hex : exists record, In record (dict_values book)
                      /\ record_occurs today record = false).
      { clear Hmsg Hrec Hvalid. induction (dict_values book) as [|r l IH].
        - discriminate.
        - simpl in E. destruct (record_occurs today r) eqn:Er.
          + destruct (IH E) as (r' & Hin & Hr'). exists r'. simpl. auto.
          + exists r. simpl. auto. }
      destruct Hex as (record & Hin & Hr). rewrite (Hrec record Hin) in Hr.
      destruct (birthday record) as [b|] eqn:Eb; [|discriminate].
      exists record, b. repeat split; auto.
      now destruct (unplaceable today (value b)). }
    split; split; eauto.
    + intros (g & Hg). congruence.
    + intros Hnone. destruct Hsome as (record & b & Hin & Hb & Hu).
      rewrite (Hnone record b Hin Hb) in Hu. discriminate.
Qed.

Lemma join_head (sep p : pystr) (rest : list pystr) :
  exists tl, join sep (p :: rest) = p ++ tl.
Proof.
  destruct rest as [|q rest]; simpl.
  - exists []. now rewrite app_nil_r.
  - eauto.
Qed.

Lemma entries_empty (today : date) (book : AddressBook) :
  entries today book = []
  <-> forall record b,
        In record (dict_values book) -> birthday record = Some b ->
        7 <= days_to_next today (value b).
Proof.
  split.
  - intros E record b Hin Hb.
    destruct (Z.lt_ge_cases (days_to_next today (value b)) 7) as [Hlt|]; auto.
    apply (entry_of_window today record b Hb) in Hlt. destruct Hlt as [wd He].
    assert (Hin' : In (wd, value (name record)) (entries today book)).
    { apply entries_of_In. eauto. }
    rewrite E in Hin'. destruct Hin'.
  - intros H. destruct (entries today book) as [|[wd nm] es] eqn:E; auto.
    assert (Hin : In (wd, nm) (entries today book)) by (rewrite E; now left).
    apply entries_of_In in Hin. destruct Hin as (record & Hin & He).
    pose proof (entry_of_name _ _ _ _ He) as ->.
    destruct (birthday record) as [b|] eqn:Hb.
    + specialize (H record b Hin Hb).
      assert (days_to_next today (value b) < 7).
      { apply (entry_of_window today record b Hb). eauto. }
      lia.
    + unfold entry_of in He. rewrite Hb in He. discriminate.
Qed.

(** X6. When the query returns, [show_birthdays_next_week] answers "No
    birthdays next week." exactly when every birthday in the book is 7
    days or more ahead (or no record has a birthday). *)
Theorem no_birthdays_text_exactly_when (today : date) (book : AddressBook)
    (g : groups) :
  get_birthdays_per_week today book = Ok g ->
  (show_birthdays_next_week today book = Ok (lit "No birthdays next week.")
   <-> forall record b,
         In record (dict_values book) -> birthday record = Some b ->
         7 <= days_to_next today (value b)).
Proof.
  intros H. rewrite <- entries_empty.
  pose proof (query_collect _ _ _ H) as Hg.
  pose proof (all_names_collect (entries today book) []) as Hp.
  rewrite <- Hg in Hp. simpl in Hp.
  unfold show_birthdays_next_week. rewrite H. cbn [rbind]. split.
  - destruct g as [|[wd names] g'].
    + intros _. apply Permutation_nil in Hp.
      now apply map_eq_nil in Hp.
    + intros E. exfalso.
      destruct (query_labels _ _ _ H wd names (or_introl eq_refl)) as [Hwd _].
      assert (E' := f_equal (fun r => match r with Ok t => t | Raise _ => [] end) E).
      cbv beta iota in E'. clear E. rename E' into E. rewrite map_cons in E.
      match type of E with
      | join ?sep (?p :: ?rest) = ?rhs =>
          destruct (join_head sep p rest) as [tl Htl];
          assert (E2 : p ++ tl = rhs) by (rewrite <- Htl; exact E)
      end.
      simpl in Hwd.
      destruct Hwd as [<-|[<-|[<-|[<-|[<-|[]]]]]]; cbn in E2; discriminate.
  - intros E. rewrite E in Hg. simpl in Hg. subst g. reflexivity.
Qed.

(** ** Records and the address book *)

Lemma add_phone_eq (p : pystr) (record : Record_) :
  add_phone p record
  = if Phone_validate p
    then Ok {| name := name record; phones := phones record ++ [mkField p];
               birthday := birthday record |}
    else Raise (ValueError (lit "Invalid phone format")).
Proof. unfold add_phone, Phone_new. now destruct (Phone_validate p). Qed.

(** X7. Phones added one after the other are kept in the order of the
    calls, after the phones the record had, duplicates included; the
    first invalid phone stops the sequence with [ValueError("Invalid
    phone format")]. *)
Theorem add_phones_in_order (ps : list pystr) (record : Record_) :
  (forallb Phone_validate ps = true ->
   add_phones ps record
   = Ok {| name := name record;
           phones := phones record ++ map mkField ps;
           birthday := birthday record |})
  /\ (forallb Phone_validate ps = false ->
      add_phones ps record = Raise (ValueError (lit "Invalid phone format"))).
Proof.
  revert record. induction ps as [|p ps IH]; intros record; simpl.
  - split; [|discriminate]. intros _. rewrite app_nil_r.
    now destruct record.
  - rewrite add_phone_eq.
    destruct (Phone_validate p); simpl; [|split; [discriminate|reflexivity]].
    destruct (IH {| name := name record; phones := phones record ++ [mkField p];
                    birthday := birthday record |}) as [Hok Hbad].
    split; intros H.
    + rewrite (Hok H). simpl. now rewrite <- app_assoc.
    + exact (Hbad H).
Qed.

Lemma dict_get_del {V} (k k' : pystr) (d : dict V) :
  NoDup (dict_keys d) ->
  dict_get k (dict_del k' d) = if str_eqb k k' then None else dict_get k d.
Proof.
  unfold dict_keys. induction d as [|[k0 v0] d IH]; simpl; intros Hnd.
  - now destruct (str_eqb k k').
  - inversion Hnd as [|? ? Hnot Hd]; subst.
    destruct (str_eqb k' k0) eqn:E'.
    + apply str_eqb_eq in E'. subst k0.
      destruct (str_eqb k k') eqn:E; [|reflexivity].
      apply str_eqb_eq in E. subst k'.
      destruct (dict_get k d) eqn:Eg; [|reflexivity].
      exfalso. apply Hnot. apply dict_get_In in Eg.
      apply in_map_iff. exists (k, v). auto.
    + simpl. destruct (str_eqb k k0) eqn:E0.
      * apply str_eqb_eq in E0. subst k0.
        destruct (str_eqb k k') eqn:E; [|reflexivity].
        apply str_eqb_eq in E. subst k'.
        rewrite str_eqb_refl in E'. discriminate.
      * apply IH, Hd.
Qed.

(** X8. A record put in with [add_record] is what [find] returns under
    its name, and [find] under every other name is as before; the name
    keeps its place in the book when it was already there, and goes last
    otherwise. *)
Theorem add_record_then_find (record : Record_) (book : AddressBook) :
  find (value (name record)) (add_record record book) = Some record
  /\ (forall nm, nm <> value (name record) ->
        find nm (add_record record book) = find nm book)
  /\ (dict_contains (value (name record)) book = true ->
      dict_keys (add_record record book) = dict_keys book)
  /\ (dict_contains (value (name record)) book = false ->
      add_record record book = book ++ [(value (name record), record)]).
Proof.
  unfold find, add_record. repeat apply conj.
  - now rewrite dict_get_set, str_eqb_refl.
  - intros nm Hne. rewrite dict_get_set.
    apply str_eqb_neq in Hne. now rewrite Hne.
  - intros H. apply dict_keys_set_present.
    destruct (dict_contains_get _ _ H) as [v ->]. discriminate.
  - intros H. apply dict_set_fresh, dict_contains_false, H.
Qed.

(** X9. In a book with distinct keys, after [delete] the name is not
    found, every other name is found as before, and deleting a name that
    is not in the book changes nothing. *)
Theorem delete_then_find (nm : pystr) (book : AddressBook) :
  NoDup (dict_keys book) ->
  find nm (delete nm book) = None
  /\ (forall k, k <> nm -> find k (delete nm book) = find k book)
  /\ (find nm book = None -> delete nm book = book).
Proof.
  intros Hnd. unfold find, delete, dict_contains.
  destruct (dict_get nm book) eqn:E.
  - repeat apply conj.
    + now rewrite dict_get_del, str_eqb_refl.
    + intros k Hne. rewrite dict_get_del by exact Hnd.
      apply str_eqb_neq in Hne. now rewrite Hne.
    + discriminate.
  - repeat apply conj; auto.
Qed.

Lemma dict_del_fresh {V} (k : pystr) (v : V) (d : dict V) :
  dict_get k d = None -> dict_del k (d ++ [(k, v)]) = d.
Proof.
  induction d as [|[k0 v0] d IH]; simpl.
  - now rewrite str_eqb_refl.
  - destruct (str_eqb k k0); [discriminate|]. intros H. now rewrite IH.
Qed.

(** X10. Adding a contact under a name that is not in the book and
    deleting that name again gives the book back as it was, whether the
    phone was accepted or not. *)
Theorem add_contact_then_delete (nm phone : pystr) (book : AddressBook) :
  dict_contains nm book = false ->
  delete nm (snd (add_contact_safely [nm; phone] book)) = book.
Proof.
  intros H. rewrite add_contact_safely_eq. simpl. rewrite H.
  pose proof (dict_contains_false _ _ H) as Hget.
  destruct (Phone_validate phone); simpl.
  - unfold add_record, delete. simpl. rewrite dict_set_fresh by exact Hget.
    assert (Hc : dict_contains nm (book ++ [(nm, {| name := mkField nm;
                   phones := [mkField phone]; birthday := None |})]) = true).
    { unfold dict_contains. rewrite <- (dict_set_fresh _ _ _ Hget).
      now rewrite dict_get_set, str_eqb_refl. }
    rewrite Hc. apply dict_del_fresh, Hget.
  - unfold delete. now rewrite H.
Qed.

(** ** How the bot functions compose *)

(** X11. After a contact is added under a new name with a valid phone,
    [find] returns a record with that name, exactly that phone and no
    birthday, [get_phone_safely] returns the phone, the name is the last
    key, and every other name is found as before. *)
Theorem add_contact_then_lookup (nm phone : pystr) (book : AddressBook) :
  dict_contains nm book = false -> Phone_validate phone = true ->
  exists book',
    add_contact_safely [nm; phone] book = (Ok (lit "Contact added."), book')
    /\ find nm book'
       = Some {| name := mkField nm; phones := [mkField phone];
                 birthday := None |}
    /\ get_phone_safely [nm] book' = (Ok phone, book')
    /\ dict_keys book' = dict_keys book ++ [nm]
    /\ forall k, k <> nm -> find k book' = find k book.
Proof.
  intros H Hp. rewrite add_contact_safely_eq. simpl. rewrite H, Hp.
  eexists. split; [reflexivity|].
  assert (Hfind : find nm (add_record {| name := mkField nm;
                    phones := [mkField phone]; birthday := None |} book)
                  = Some {| name := mkField nm; phones := [mkField phone];
                            birthday := None |}).
  { unfold find, add_record. simpl. now rewrite dict_get_set, str_eqb_refl. }
  split; [exact Hfind|]. split; [|split].
  - rewrite get_phone_safely_eq. unfold find in Hfind. now rewrite Hfind.
  - unfold add_record. simpl.
    rewrite dict_set_fresh by (apply dict_contains_false, H).
    unfold dict_keys. now rewrite map_app.
  - intros k Hne. unfold find, add_record. simpl. rewrite dict_get_set.
    apply str_eqb_neq in Hne. now rewrite Hne.
Qed.

(** X12. After [change_contact_safely] on a contact that has a phone,
    [get_phone_safely] returns the new text whatever it is, valid as a
    phone or not; the keys of the book and the records under the other
    names are as before. *)
Theorem change_then_get_phone (nm phone : pystr) (book : AddressBook)
    (record : Record_) :
  dict_get nm book = Some record -> phones record <> [] ->
  exists book',
    change_contact_safely [nm; phone] book = (Ok (lit "Contact updated."), book')
    /\ get_phone_safely [nm] book' = (Ok phone, book')
    /\ dict_keys book' = dict_keys book
    /\ forall k, k <> nm -> find k book' = find k book.
Proof.
  intros Hget Hne. destruct (phones record) as [|p others] eqn:Ep;
    [contradiction|].
  rewrite change_contact_safely_eq. simpl. rewrite Hget, Ep.
  eexists. split; [reflexivity|]. split; [|split].
  - rewrite get_phone_safely_eq, dict_get_set, str_eqb_refl. reflexivity.
  - apply dict_keys_set_present. congruence.
  - intros k Hk. unfold find. rewrite dict_get_set.
    apply str_eqb_neq in Hk. now rewrite Hk.
Qed.

(** X13. A wrapped function that does not return its confirmation
    leaves the address book untouched; [get_phone_safely] and
    [show_birthday_safely] never change it. *)
Theorem failed_calls_change_nothing (pad_year : bool) (args : list pystr)
    (book : AddressBook) :
  (fst (add_contact_safely args book) <> Ok (lit "Contact added.") ->
   snd (add_contact_safely args book) = book)
  /\ (fst (change_contact_safely args book) <> Ok (lit "Contact updated.") ->
      snd (change_contact_safely args book) = book)
  /\ (fst (add_birthday_safely args book) <> Ok (lit "Birthday added.") ->
      snd (add_birthday_safely args book) = book)
  /\ snd (get_phone_safely args book) = book
  /\ snd (show_birthday_safely pad_year args book) = book.
Proof.
  repeat apply conj.
  - rewrite add_contact_safely_eq.
    destruct (unpack2 args) as [[nm phone]|e]; [|reflexivity].
    destruct (dict_contains nm book); [reflexivity|].
    destruct (Phone_validate phone); [|reflexivity].
    simpl. intros H. now contradiction H.
  - rewrite change_contact_safely_eq.
    destruct (unpack2 args) as [[nm phone]|e]; [|reflexivity].
    destruct (dict_get nm book) as [record|]; [|reflexivity].
    destruct (phones record); [reflexivity|].
    simpl. intros H. now contradiction H.
  - rewrite add_birthday_safely_eq.
    destruct (unpack2 args) as [[nm date]|e]; [|reflexivity].
    destruct (dict_get nm book) as [record|]; [|reflexivity].
    destruct (Birthday_new date); [|reflexivity].
    simpl. intros H. now contradiction H.
  - rewrite get_phone_safely_eq. destruct args as [|nm rest]; [reflexivity|].
    destruct (dict_get nm book) as [record|]; [|reflexivity].
    destruct (phones record); reflexivity.
  - rewrite show_birthday_safely_eq. destruct args as [|nm rest]; [reflexivity|].
    destruct (dict_get nm book) as [[n ps [b|]]|]; reflexivity.
Qed.

(** X14. With a number of arguments other than two, adding, changing
    and adding a birthday all return the same text, that of the failed
    unpacking, and leave the book as it is; with no argument, the phone
    and birthday lookups return "list index out of range"; arguments
    after the first are ignored by the two lookups. *)
Theorem wrong_argument_count (pad_year : bool) (args : list pystr)
    (book : AddressBook) :
  (List.length args <> 2%nat ->
   exists msg,
     unpack2 args = Raise (ValueError msg)
     /\ add_contact_safely args book = (Ok msg, book)
     /\ change_contact_safely args book = (Ok msg, book)
     /\ add_birthday_safely args book = (Ok msg, book))
  /\ get_phone_safely [] book = (Ok (lit "list index out of range"), book)
  /\ show_birthday_safely pad_year [] book
     = (Ok (lit "list index out of range"), book)
  /\ (forall nm rest,
        get_phone_safely (nm :: rest) book = get_phone_safely [nm] book
        /\ show_birthday_safely pad_year (nm :: rest) book
           = show_birthday_safely pad_year [nm] book).
Proof.
  repeat apply conj; try reflexivity.
  - intros Hlen.
    rewrite add_contact_safely_eq, change_contact_safely_eq,
      add_birthday_safely_eq.
    destruct (unpack2_cases args) as [(a & b & -> & _)|(msg & ->)].
    + now contradiction Hlen.
    + exists msg. auto.
  - intros nm rest.
    now rewrite !get_phone_safely_eq, !show_birthday_safely_eq.
Qed.

Lemma dict_set_twice {V} (k : pystr) (v1 v2 : V) (d : dict V) :
  dict_set k v2 (dict_set k v1 d) = dict_set k v2 d.
Proof.
  induction d as [|[k0 v0] d IH]; simpl.
  - now rewrite str_eqb_refl.
  - destruct (str_eqb k k0) eqn:E; simpl; rewrite E; [reflexivity|].
    now rewrite IH.
Qed.

(** X15. A second birthday replaces the first: adding two accepted
    dates in a row leaves the book as adding the second alone would, and
    the phones of the record are kept. *)
Theorem add_birthday_last_wins (nm d1 d2 : pystr) (book : AddressBook)
    (record : Record_) (b1 b2 : Birthday) :
  dict_get nm book = Some record ->
  Birthday_new d1 = Ok b1 -> Birthday_new d2 = Ok b2 ->
  snd (add_birthday_safely [nm; d2] (snd (add_birthday_safely [nm; d1] book)))
  = snd (add_birthday_safely [nm; d2] book)
  /\ find nm (snd (add_birthday_safely [nm; d2] book))
     = Some {| name := name record; phones := phones record;
               birthday := Some b2 |}.
Proof.
  intros Hget H1 H2. rewrite !add_birthday_safely_eq. simpl.
  rewrite Hget, H1. simpl. rewrite dict_get_set, str_eqb_refl, H2. simpl.
  split.
  - apply dict_set_twice.
  - unfold find. now rewrite dict_get_set, str_eqb_refl.
Qed.

(** X16. Every text [Birthday] accepts has 8 to 10 characters: a day of
    one or two characters, a dot, a month of one or two characters, a dot
    and a year of four. *)
Theorem birthday_text_shape (s : pystr) (b : Birthday) :
  Birthday_new s = Ok b ->
  exists D Mo Y,
    s = D ++ [46] ++ Mo ++ [46] ++ Y
    /\ (1 <= List.length D <= 2)%nat /\ (1 <= List.length Mo <= 2)%nat
    /\ List.length Y = 4%nat
    /\ (8 <= List.length s <= 10)%nat.
Proof.
  intros H. apply Birthday_new_inv in H. unfold strptime in H.
  destruct (rx_match format_regex s) as [[found rest]|] eqn:E;
    [|discriminate].
  destruct rest; [|discriminate].
  apply rx_match_format_inv in E.
  destruct E as (aD & aM & D & Mo & Y & HaD & HaM & HD & HM & HY & -> & _).
  apply re_d_lengths in HaD. apply re_m_lengths in HaM.
  apply Forall2_length in HD, HM, HY. simpl in HY.
  exists D, Mo, Y. rewrite app_nil_r.
  repeat split; try lia.
  - rewrite !length_app. simpl. rewrite !length_app. simpl. lia.
  - rewrite !length_app. simpl. rewrite !length_app. simpl. lia.
Qed.

(** ** Reading a line and the loop of [main] *)

Lemma split_from_blank (s word : pystr) :
  is_blank s = true ->
  split_from s word = match word with [] => [] | _ => [word] end.
Proof.
  revert word. induction s as [|c s IH]; intros word; simpl; [reflexivity|].
  intros H. apply andb_true_iff in H. destruct H as [Hc Hs].
  rewrite Hc. destruct word; rewrite (IH [] Hs); reflexivity.
Qed.

Lemma split_from_not_blank (s word : pystr) :
  is_blank s = false -> split_from s word <> [].
Proof.
  revert word. induction s as [|c s IH]; intros word; simpl; [discriminate|].
  destruct (isspace_char c) eqn:Ec; simpl; intros H.
  - destruct word; [apply IH, H | discriminate].
  - clear H IH. revert word. generalize c. clear c Ec.
    induction s as [|c' s IH]; intros c word; simpl.
    + destruct word; discriminate.
    + destruct (isspace_char c'); [destruct word; discriminate | apply IH].
Qed.

Lemma split_from_words (s word : pystr) :
  forallb (fun c => negb (isspace_char c)) word = true ->
  Forall (fun w => is_word w = true) (split_from s word).
Proof.
  revert word. induction s as [|c s IH]; intros word Hw; simpl.
  - destruct word; repeat constructor. exact Hw.
  - destruct (isspace_char c) eqn:Ec.
    + destruct word; [now apply IH|].
      constructor; [exact Hw | now apply IH].
    + apply IH. rewrite forallb_app, Hw. simpl. now rewrite Ec.
Qed.

Lemma split_from_word (w rest word : pystr) :
  forallb (fun c => negb (isspace_char c)) w = true ->
  split_from (w ++ rest) word = split_from rest (word ++ w).
Proof.
  revert word. induction w as [|c w IH]; intros word; simpl.
  - now rewrite app_nil_r.
  - intros H. apply andb_true_iff in H. destruct H as [Hc Hw].
    apply negb_true_iff in Hc. rewrite Hc, (IH _ Hw), <- app_assoc.
    reflexivity.
Qed.

Lemma is_word_inv (w : pystr) :
  is_word w = true ->
  w <> [] /\ forallb (fun c => negb (isspace_char c)) w = true.
Proof. destruct w; [discriminate|]. intros H. split; [discriminate|exact H]. Qed.

Lemma split_join (ws : list pystr) :
  Forall (fun w => is_word w = true) ws -> split (join [32] ws) = ws.
Proof.
  unfold split. induction 1 as [|w ws Hw Hws IH]; [reflexivity|].
  destruct (is_word_inv w Hw) as [Hne Hchars].
  destruct ws as [|w' ws].
  - simpl. rewrite <- (app_nil_r w) at 1.
    rewrite (split_from_word w [] [] Hchars). simpl.
    destruct w; [contradiction | reflexivity].
  - change (join [32] (w :: w' :: ws)) with (w ++ [32] ++ join [32] (w' :: ws)).
    rewrite (split_from_word w _ [] Hchars).
    cbn [app split_from]. change (isspace_char 32) with true. cbv iota.
    destruct w; [contradiction|]. now rewrite IH.
Qed.

Lemma split_from_skip (pre t : pystr) :
  is_blank pre = true -> split_from (pre ++ t) [] = split_from t [].
Proof.
  induction pre as [|c pre IH]; simpl; [reflexivity|].
  intros H. apply andb_true_iff in H. destruct H as [Hc Hpre].
  rewrite Hc. apply IH, Hpre.
Qed.

(** The words a line holds are the words [split] returns. *)
Lemma reads_as_split (s : pystr) (ws : list pystr) :
  reads_as s ws -> split s = ws.
Proof.
  unfold split. induction 1 as [s Hs|pre w rest ws Hpre Hw Hrest _ IH].
  - apply (split_from_blank s [] Hs).
  - destruct (is_word_inv w Hw) as [Hne Hchars].
    rewrite (split_from_skip pre _ Hpre), (split_from_word w rest [] Hchars).
    cbn [app]. destruct rest as [|c rest].
    + simpl in IH. subst ws. simpl. destruct w; [contradiction|reflexivity].
    + simpl in IH |- *. rewrite Hrest in IH |- *.
      destruct w; [contradiction|]. now rewrite IH.
Qed.

Lemma reads_as_cons_space (c : Z) (t : pystr) (ws : list pystr) :
  isspace_char c = true -> reads_as t ws -> reads_as (c :: t) ws.
Proof.
  intros Hc H. destruct H as [s Hs|pre w rest ws Hpre Hw Hrest Hws].
  - apply reads_blank. simpl. now rewrite Hc.
  - apply (reads_word (c :: pre) w rest ws); auto.
    simpl. now rewrite Hc.
Qed.

Lemma split_from_reads (s word : pystr) :
  forallb (fun c => negb (isspace_char c)) word = true ->
  reads_as (word ++ s) (split_from s word).
Proof.
  revert word. induction s as [|c s IH]; intros word Hw.
  - simpl. destruct word as [|x word].
    + now apply reads_blank.
    + apply (reads_word [] (x :: word) [] []); auto.
      now apply reads_blank.
  - cbn [split_from]. destruct (isspace_char c) eqn:Ec.
    + destruct word as [|x word].
      * apply reads_as_cons_space; [exact Ec|]. exact (IH [] eq_refl).
      * apply (reads_word [] (x :: word) (c :: s)); auto.
        apply reads_as_cons_space; [exact Ec|]. exact (IH [] eq_refl).
    + replace (word ++ c :: s) with ((word ++ [c]) ++ s)
        by (now rewrite <- app_assoc).
      apply IH. rewrite forallb_app, Hw. simpl. now rewrite Ec.
Qed.

(** X18. [read_customer_input] raises a [ValueError] on a line that is
    empty or holds white space only.  A line that holds the words
    [cmd :: args], with white space around and between them, gives the
    first word in lower case and the remaining words; every line that is
    not blank holds such words, each non-empty and free of white
    space. *)
Theorem read_customer_input_words (lower : pystr -> pystr) (s : pystr) :
  (is_blank s = true ->
   read_customer_input lower s
   = Raise (ValueError
       (lit "not enough values to unpack (expected at least 1, got 0)")))
  /\ (forall cmd args,
        reads_as s (cmd :: args) ->
        read_customer_input lower s = Ok (lower cmd, args))
  /\ (is_blank s = false ->
      exists cmd args,
        reads_as s (cmd :: args)
        /\ read_customer_input lower s = Ok (lower cmd, args)
        /\ is_word cmd = true
        /\ Forall (fun w => is_word w = true) args).
Proof.
  unfold read_customer_input. split; [|split].
  - intros H. unfold split. now rewrite (split_from_blank s [] H).
  - intros cmd args H. now rewrite (reads_as_split _ _ H).
  - intros H. pose proof (split_from_not_blank s [] H) as Hne.
    pose proof (split_from_words s [] eq_refl) as Hw.
    pose proof (split_from_reads s [] eq_refl) as Hr.
    simpl in Hr. unfold split.
    destruct (split_from s []) as [|cmd args]; [contradiction|].
    inversion Hw; subst. exists cmd, args. auto.
Qed.

(** X19. Words joined by single spaces are read back as they were: the
    first one, in lower case, is the command and the others are the
    arguments. *)
Theorem read_customer_input_join (lower : pystr -> pystr) (cmd : pystr)
    (args : list pystr) :
  is_word cmd = true -> Forall (fun w => is_word w = true) args ->
  read_customer_input lower (join [32] (cmd :: args)) = Ok (lower cmd, args).
Proof.
  intros Hc Ha. unfold read_customer_input.
  now rewrite (split_join (cmd :: args) (Forall_cons _ Hc Ha)).
Qed.

(** A command on a book in which every record has a phone returns a
    text, except "birthdays", which may raise a [ValueError]. *)
Lemma run_command_result (pad_year : bool) (c : command) (book : AddressBook) :
  all_have_phone book ->
  (exists s, fst (run_command pad_year c book) = Ok s)
  \/ (exists msg, fst (run_command pad_year c book) = Raise (ValueError msg)).
Proof.
  intros Hall. destruct c as [args|args|args| |args|args|today]; simpl.
  - rewrite add_contact_safely_eq.
    destruct (unpack2 args) as [[nm phone]|e]; [|cbn [fst]; eauto].
    destruct (dict_contains nm book); [cbn [fst]; eauto|].
    destruct (Phone_validate phone); cbn [fst]; eauto.
  - rewrite change_contact_safely_eq.
    destruct (unpack2 args) as [[nm phone]|e]; [|cbn [fst]; eauto].
    destruct (dict_get nm book) as [record|]; [|cbn [fst]; eauto].
    destruct (phones record); cbn [fst]; eauto.
  - rewrite get_phone_safely_eq. destruct args as [|nm rest]; [cbn [fst]; eauto|].
    destruct (dict_get nm book) as [record|]; [|cbn [fst]; eauto].
    destruct (phones record); cbn [fst]; eauto.
  - left. apply show_all_contacts_ok, Hall.
  - rewrite add_birthday_safely_eq.
    destruct (unpack2 args) as [[nm date]|e]; [|cbn [fst]; eauto].
    destruct (dict_get nm book) as [record|]; [|cbn [fst]; eauto].
    destruct (Birthday_new date); cbn [fst]; eauto.
  - rewrite show_birthday_safely_eq. destruct args as [|nm rest]; [cbn [fst]; eauto|].
    destruct (dict_get nm book) as [[n ps [b|]]|]; cbn [fst]; eauto.
  - destruct (forallb (record_occurs today) (dict_values book)) eqn:E.
    + left. apply show_birthdays_next_week_ok, E.
    + right. unfold show_birthdays_next_week, get_birthdays_per_week.
      destruct (for_records_raise today _ [] E) as [msg ->]. simpl. eauto.
Qed.

(** A turn of the loop either leaves the book alone and prints a fixed
    text, or runs one command and prints what it returns. *)
Lemma main_turn_effect (lower : pystr -> pystr) (pad_year : bool)
    (today : date) (user_input : pystr) (book : AddressBook) :
  (exists e, read_customer_input lower user_input = Raise e
             /\ main_turn lower pad_year today user_input book
                = (Raise e, book))
  \/ (exists out stop,
        main_turn lower pad_year today user_input book
        = (Ok (out, stop), book))
  \/ (exists c,
        main_turn lower pad_year today user_input book
        = (match fst (run_command pad_year c book) with
           | Ok out => Ok (out, false)
           | Raise e => Raise e
           end, snd (run_command pad_year c book))).
Proof.
  unfold main_turn, bind, lift.
  destruct (read_customer_input lower user_input) as [[command args]|e];
    [|left; eauto].
  right.
  destruct (str_eqb command (lit "close") || str_eqb command (lit "exit"));
    [left; unfold ret; eauto|].
  destruct (str_eqb command (lit "hello")); [left; unfold ret; eauto|].
  destruct (str_eqb command (lit "add")).
  { right. exists (cmd_add args). simpl.
    destruct (add_contact_safely args book) as [[s|e] b']; reflexivity. }
  destruct (str_eqb command (lit "change")).
  { right. exists (cmd_change args). simpl.
    destruct (change_contact_safely args book) as [[s|e] b']; reflexivity. }
  destruct (str_eqb command (lit "phone")).
  { right. exists (cmd_phone args). simpl.
    destruct (get_phone_safely args book) as [[s|e] b']; reflexivity. }
  destruct (str_eqb command (lit "all")).
  { right. exists cmd_all. simpl. unfold get_book.
    destruct (show_all_contacts book); reflexivity. }
  destruct (str_eqb command (lit "add-birthday")).
  { right. exists (cmd_add_birthday args). simpl.
    destruct (add_birthday_safely args book) as [[s|e] b']; reflexivity. }
  destruct (str_eqb command (lit "show-birthday")).
  { right. exists (cmd_show_birthday args). simpl.
    destruct (show_birthday_safely pad_year args book) as [[s|e] b'];
      reflexivity. }
  destruct (str_eqb command (lit "birthdays")).
  { right. exists (cmd_birthdays today). simpl. unfold get_book.
    destruct (show_birthdays_next_week today book); reflexivity. }
  left. unfold ret. eauto.
Qed.

Lemma main_loop_invariants (lower : pystr -> pystr) (pad_year : bool)
    (inputs : list (date * pystr)) (book : AddressBook) (trace : list event) :
  reachable pad_year book ->
  reachable pad_year (snd (main_loop lower pad_year inputs book trace))
  /\ forall e,
       snd (fst (main_loop lower pad_year inputs book trace)) = Crashed e ->
       exists msg, e = ValueError msg.
Proof.
  revert book trace.
  induction inputs as [|[today line] rest IH]; intros book trace Hreach.
  - simpl. split; [exact Hreach | discriminate].
  - cbn [main_loop].
    destruct (main_turn_effect lower pad_year today line book)
      as [(e & He & ->)|[(out & stop & ->)|(c & ->)]].
    + simpl. split; [exact Hreach|]. intros e' [= <-].
      unfold read_customer_input in He.
      destruct (split line); [injection He as <-; eauto | discriminate].
    + destruct stop.
      * simpl. split; [exact Hreach | discriminate].
      * apply IH, Hreach.
    + pose proof (reach_command pad_year c book Hreach) as Hreach'.
      destruct (run_command_result pad_year c book
                  (reachable_all_have_phone _ _ Hreach))
        as [(s & Hs)|(msg & Hmsg)].
      * rewrite Hs. apply IH, Hreach'.
      * rewrite Hmsg. simpl. split; [exact Hreach'|].
        intros e' [= <-]. eauto.
Qed.

(** X20. Whatever lines it is given, [main] holds an address book that
    the commands can reach, so every record in it has a first phone.
    [main] ends in one of three ways: by "close" or "exit", by the
    [EOFError] that [input] raises when the lines have run out, or by a
    [ValueError] raised in a turn; an exception raised in a turn is
    never an [IndexError] or a [KeyError]. *)
Theorem main_keeps_book_sound (lower : pystr -> pystr) (pad_year : bool)
    (inputs : list (date * pystr)) :
  reachable pad_year (snd (main lower pad_year inputs))
  /\ all_have_phone (snd (main lower pad_year inputs))
  /\ (forall e,
        snd (fst (main lower pad_year inputs)) = Crashed e ->
        exists msg, e = ValueError msg)
  /\ (snd (fst (main lower pad_year inputs)) = Exited
      \/ snd (fst (main lower pad_year inputs)) = EOFError_at_input
      \/ exists msg,
           snd (fst (main lower pad_year inputs))
           = Crashed (ValueError msg)).
Proof.
  unfold main.
  destruct (main_loop_invariants lower pad_year inputs []
              [Print (lit "Welcome to the assistant bot!")]
              (reach_empty pad_year)) as [Hreach Hcrash].
  split; [exact Hreach|].
  split; [apply (reachable_all_have_phone pad_year), Hreach|].
  split; [exact Hcrash|].
  destruct (snd (fst (main_loop lower pad_year inputs []
                        [Print (lit "Welcome to the assistant bot!")])))
    as [|e|] eqn:E; auto.
  destruct (Hcrash e eq_refl) as [msg ->]. eauto.
Qed.

(** X21. A line that is empty or holds white space only ends [main]
    with the [ValueError] of the failed unpacking; nothing is printed for
    that line, the lines after it are not read and the book stays as it
    was. *)
Theorem blank_line_ends_main (lower : pystr -> pystr) (pad_year : bool)
    (today : date) (line : pystr) (rest : list (date * pystr))
    (book : AddressBook) (trace : list event) :
  is_blank line = true ->
  main_loop lower pad_year ((today, line) :: rest) book trace
  = (trace ++ [Prompt (lit "Enter a command: ")],
     Crashed (ValueError
       (lit "not enough values to unpack (expected at least 1, got 0)")),
     book).
Proof.
  intros H. cbn [main_loop]. unfold main_turn, bind, lift.
  unfold read_customer_input, split. now rewrite (split_from_blank line [] H).
Qed.

(** X22. A line whose first word is "close" or "exit" once in lower
    case makes [main] print "Good bye!" and end; the rest of the line and
    the lines after it play no part, and the book stays as it was. *)
Theorem close_or_exit_ends_main (lower : pystr -> pystr) (pad_year : bool)
    (today : date) (line cmd : pystr) (args : list pystr)
    (rest : list (date * pystr)) (book : AddressBook) (trace : list event) :
  split line = cmd :: args ->
  lower cmd = lit "close" \/ lower cmd = lit "exit" ->
  main_loop lower pad_year ((today, line) :: rest) book trace
  = (trace ++ [Prompt (lit "Enter a command: ")] ++ [Print (lit "Good bye!")],
     Exited, book).
Proof.
  intros Hs Hc. cbn [main_loop]. unfold main_turn, bind, lift.
  unfold read_customer_input. rewrite Hs.
  assert (E : str_eqb (lower cmd) (lit "close")
              || str_eqb (lower cmd) (lit "exit") = true).
  { destruct Hc as [->| ->]; reflexivity. }
  rewrite E. unfold ret. now rewrite <- app_assoc.
Qed.

(** ** Listing the contacts and counting the days *)

Lemma contact_lines_head (nm : pystr) (record : Record_)
    (rest : list (pystr * Record_)) (lines : list pystr) :
  contact_lines ((nm, record) :: rest) = Ok lines ->
  exists p tl, lines = (nm ++ lit ": " ++ p) :: tl.
Proof.
  simpl. destruct (item0 (phones record)) as [p|]; [|discriminate]. simpl.
  destruct (contact_lines rest) as [ls|]; [|discriminate]. simpl.
  intros [= <-]. eauto.
Qed.

(** X23. [show_all_contacts] answers "No contacts stored." for the
    empty book and for no other book: the text for a book with contacts
    holds a colon, which that answer does not. *)
Theorem no_contacts_text_exactly_when (book : AddressBook) :
  show_all_contacts book = Ok (lit "No contacts stored.") <-> book = [].
Proof.
  split; [|intros ->; reflexivity].
  destruct book as [|[nm record] rest]; [reflexivity|].
  unfold show_all_contacts.
  destruct (contact_lines ((nm, record) :: rest)) as [lines|] eqn:E;
    [|discriminate].
  destruct (contact_lines_head _ _ _ _ E) as (p & tl & ->).
  cbn [rbind]. intros H. exfalso.
  assert (H' := f_equal (fun r => match r with Ok t => t | Raise _ => [] end) H).
  cbv beta iota in H'.
  match type of H' with
  | join ?sep (?q :: ?r) = ?rhs =>
      destruct (join_head sep q r) as [tl' Htl];
      assert (E2 : q ++ tl' = rhs) by (rewrite <- Htl; exact H')
  end.
  assert (Hin : In 58 (lit "No contacts stored.")).
  { rewrite <- E2. apply in_or_app. left. apply in_or_app. right.
    simpl. auto. }
  simpl in Hin. repeat (destruct Hin as [Hin|Hin]; [discriminate|]).
  exact Hin.
Qed.

Lemma ord_strict_in_year (y m d m' d' : Z) :
  valid_ymd y m d = true -> valid_ymd y m' d' = true ->
  m < m' \/ (m = m' /\ d < d') ->
  days_before_month y m + d < days_before_month y m' + d'.
Proof.
  rewrite !valid_ymd_iff. intros (_ & Hm & Hd) (_ & Hm' & Hd') Hlt.
  each_month m Hm; each_month m' Hm'; month_tables;
    destruct (is_leap y); lia.
Qed.

Lemma date_lt_same_year (y m d : Z) (b : date) :
  date_lt (mkdate y m d) b = true -> y = year b ->
  m < month b \/ (m = month b /\ d < day b).
Proof.
  unfold date_lt; simpl. intros H ->.
  rewrite Z.ltb_irrefl, Z.eqb_refl in H. simpl in H.
  apply orb_true_iff in H. destruct H as [H|H].
  - apply Z.ltb_lt in H. auto.
  - apply andb_true_iff in H. destruct H as [H1 H2].
    apply Z.eqb_eq in H1. apply Z.ltb_lt in H2. auto.
Qed.

Lemma same_day_next_year (y m d : Z) :
  1 <= m <= 12 ->
  ymd2ord (y + 1) m d - ymd2ord y m d <= 366.
Proof.
  intros Hm. unfold ymd2ord. rewrite days_before_year_succ.
  destruct (is_leap y) eqn:El.
  - pose proof (is_leap_succ y El) as El'.
    unfold days_before_month. rewrite El, El'.
    each_month m Hm; month_tables; lia.
  - unfold days_before_month. rewrite El.
    each_month m Hm; month_tables; destruct (is_leap (y + 1)); lia.
Qed.

(** X24. With valid dates, the number of days from today to the next
    occurrence of a birthday, which the loop compares with 7, lies
    between 0 and 365. *)
Theorem days_to_next_bounds (today bday : date) :
  valid_date today = true -> occurs today bday = true ->
  0 <= days_to_next today bday <= 365.
Proof.
  intros Ht Hocc. split; [apply days_to_next_nonneg; assumption|].
  unfold occurs, days_to_next, next_occurrence, valid_date in *.
  apply andb_true_iff in Hocc. destruct Hocc as [Hthis Hnext].
  destruct (date_lt (this_year today bday) today) eqn:E;
    unfold this_year, toordinal in *; cbn [year month day] in *.
  - pose proof (date_lt_same_year _ _ _ _ E eq_refl) as Hlt.
    pose proof (ord_strict_in_year _ _ _ _ _ Hthis Ht Hlt) as Hs.
    apply valid_ymd_iff in Hthis. destruct Hthis as (_ & Hm & _).
    pose proof (same_day_next_year (year today) (month bday) (day bday) Hm).
    unfold ymd2ord in *. lia.
  - pose proof (ord_in_year _ _ _ Ht). pose proof (ord_in_year _ _ _ Hthis).
    unfold ymd2ord. destruct (is_leap (year today)); lia.
Qed.

(** ** The further properties at concrete inputs *)

Lemma group_in_book_order_witness :
  get_birthdays_per_week (mkdate 2026 11 3) week_book = Ok week_groups
  /\ group_of (lit "Monday") week_groups
     = map snd (filter (fun e => str_eqb (fst e) (lit "Monday"))
                  (entries (mkdate 2026 11 3) week_book)).
Proof.
  assert (H : get_birthdays_per_week (mkdate 2026 11 3) week_book
              = Ok week_groups) by reflexivity.
  exact (conj H (group_in_book_order _ _ _ H (lit "Monday"))).
Defined.

Lemma labels_in_first_seen_order_witness :
  dict_keys week_groups
  = first_seen [] (map fst (entries (mkdate 2026 11 3) week_book))
  /\ NoDup (dict_keys week_groups).
Proof.
  apply (labels_in_first_seen_order (mkdate 2026 11 3) week_book week_groups).
  reflexivity.
Defined.

Lemma labels_are_working_days_witness :
  In (lit "Monday") working_days /\ [lit "Eve"] <> []
  /\ lit "Monday" <> lit "Saturday" /\ lit "Monday" <> lit "Sunday".
Proof.
  apply (labels_are_working_days (mkdate 2026 11 3) week_book week_groups).
  - reflexivity.
  - right. left. reflexivity.
Defined.

Lemma each_record_listed_once_witness :
  Permutation (all_names week_groups)
    (map snd (entries (mkdate 2026 11 3) week_book))
  /\ (NoDup (record_names week_book) -> NoDup (all_names week_groups)).
Proof.
  apply (each_record_listed_once (mkdate 2026 11 3) week_book week_groups).
  reflexivity.
Defined.

Lemma query_raises_exactly_when_witness :
  exists msg,
    get_birthdays_per_week march_first bob_leap_book = Raise (ValueError msg).
Proof.
  refine (proj2 (proj2 (query_raises_exactly_when march_first bob_leap_book
                          _ _)) _).
  - reflexivity.
  - intros record b [<-|[]] [= <-]. reflexivity.
  - exists bob_leap_record, (mkField (mkdate 2020 2 29)).
    split; [left; reflexivity|]. split; reflexivity.
Defined.

Lemma no_birthdays_text_exactly_when_witness :
  show_birthdays_next_week (mkdate 2024 2 1) bob_leap_book
  = Ok (lit "No birthdays next week.").
Proof.
  refine (proj2 (no_birthdays_text_exactly_when (mkdate 2024 2 1)
                   bob_leap_book [] _) _).
  - reflexivity.
  - intros record b [<-|[]] [= <-]. vm_compute. discriminate.
Defined.

Lemma add_phones_in_order_witness :
  add_phones [lit "1234567890"; lit "1234567890"] (Record_new (lit "Bob"))
  = Ok {| name := mkField (lit "Bob");
          phones := [] ++ map mkField [lit "1234567890"; lit "1234567890"];
          birthday := None |}.
Proof.
  apply (proj1 (add_phones_in_order [lit "1234567890"; lit "1234567890"]
                  (Record_new (lit "Bob")))).
  reflexivity.
Defined.

Lemma add_record_then_find_witness :
  add_record eve_record bob_book
  = bob_book ++ [(value (name eve_record), eve_record)].
Proof.
  apply (proj2 (proj2 (proj2 (add_record_then_find eve_record bob_book)))).
  reflexivity.
Defined.

Lemma delete_then_find_witness :
  find (lit "Bob") (delete (lit "Bob") bob_book) = None
  /\ (forall k, k <> lit "Bob" ->
        find k (delete (lit "Bob") bob_book) = find k bob_book)
  /\ (find (lit "Bob") bob_book = None -> delete (lit "Bob") bob_book = bob_book).
Proof.
  apply (delete_then_find (lit "Bob") bob_book).
  vm_compute. constructor; [intros [] | constructor].
Defined.

Lemma add_contact_then_delete_witness :
  delete (lit "Eve")
    (snd (add_contact_safely [lit "Eve"; lit "5550000002"] bob_book))
  = bob_book.
Proof.
  apply (add_contact_then_delete (lit "Eve") (lit "5550000002") bob_book).
  reflexivity.
Defined.

Lemma add_contact_then_lookup_witness :
  exists book',
    add_contact_safely [lit "Bob"; lit "1234567890"] []
    = (Ok (lit "Contact added."), book')
    /\ find (lit "Bob") book' = Some bob_record
    /\ get_phone_safely [lit "Bob"] book' = (Ok (lit "1234567890"), book')
    /\ dict_keys book' = dict_keys (V:=Record_) [] ++ [lit "Bob"]
    /\ forall k, k <> lit "Bob" -> find k book' = find k [].
Proof.
  apply (add_contact_then_lookup (lit "Bob") (lit "1234567890") []);
    reflexivity.
Defined.

Lemma change_then_get_phone_witness :
  exists book',
    change_contact_safely [lit "Bob"; lit "no phone"] bob_book
    = (Ok (lit "Contact updated."), book')
    /\ get_phone_safely [lit "Bob"] book' = (Ok (lit "no phone"), book')
    /\ dict_keys book' = dict_keys bob_book
    /\ forall k, k <> lit "Bob" -> find k book' = find k bob_book.
Proof.
  apply (change_then_get_phone (lit "Bob") (lit "no phone") bob_book
           bob_record).
  - reflexivity.
  - discriminate.
Defined.

Lemma failed_calls_change_nothing_witness :
  snd (add_contact_safely [lit "Bob"; lit "12345"] []) = [].
Proof.
  apply (proj1 (failed_calls_change_nothing true [lit "Bob"; lit "12345"] [])).
  vm_compute. discriminate.
Defined.

Lemma wrong_argument_count_witness :
  exists msg,
    unpack2 [lit "Bob"] = Raise (ValueError msg)
    /\ add_contact_safely [lit "Bob"] bob_book = (Ok msg, bob_book)
    /\ change_contact_safely [lit "Bob"] bob_book = (Ok msg, bob_book)
    /\ add_birthday_safely [lit "Bob"] bob_book = (Ok msg, bob_book).
Proof.
  apply (proj1 (wrong_argument_count true [lit "Bob"] bob_book)).
  simpl. discriminate.
Defined.

Lemma add_birthday_last_wins_witness :
  snd (add_birthday_safely [lit "Bob"; lit "29.02.2020"]
         (snd (add_birthday_safely [lit "Bob"; lit "01.01.2000"] bob_book)))
  = snd (add_birthday_safely [lit "Bob"; lit "29.02.2020"] bob_book)
  /\ find (lit "Bob")
       (snd (add_birthday_safely [lit "Bob"; lit "29.02.2020"] bob_book))
     = Some {| name := name bob_record; phones := phones bob_record;
               birthday := Some (mkField (mkdate 2020 2 29)) |}.
Proof.
  apply (add_birthday_last_wins (lit "Bob") (lit "01.01.2000")
           (lit "29.02.2020") bob_book bob_record
           (mkField (mkdate 2000 1 1)) (mkField (mkdate 2020 2 29)));
    reflexivity.
Defined.

Lemma birthday_text_shape_witness :
  exists D Mo Y,
    lit "1.2.2020" = D ++ [46] ++ Mo ++ [46] ++ Y
    /\ (1 <= List.length D <= 2)%nat /\ (1 <= List.length Mo <= 2)%nat
    /\ List.length Y = 4%nat
    /\ (8 <= List.length (lit "1.2.2020") <= 10)%nat.
Proof.
  apply (birthday_text_shape (lit "1.2.2020") (mkField (mkdate 2020 2 1))).
  reflexivity.
Defined.

Lemma show_birthday_after_add_witness :
  exists book',
    add_birthday_safely [lit "Bob"; lit "29.02.2020"] bob_book
    = (Ok (lit "Birthday added."), book')
    /\ show_birthday_safely false [lit "Bob"] book'
       = (Ok (lit "29.02.2020"), book').
Proof.
  apply (show_birthday_after_add false (lit "Bob") (lit "29.02.2020")
           bob_book bob_record (mkField (mkdate 2020 2 29))).
  - reflexivity.
  - reflexivity.
  - reflexivity.
  - right. simpl. lia.
Defined.

Lemma read_customer_input_words_witness :
  read_customer_input ascii_lower (lit "  ADD Bob ")
  = Ok (ascii_lower (lit "ADD"), [lit "Bob"])
  /\ exists cmd args,
       reads_as (lit "  ADD Bob   1234567890 ") (cmd :: args)
       /\ read_customer_input ascii_lower (lit "  ADD Bob   1234567890 ")
          = Ok (ascii_lower cmd, args)
       /\ is_word cmd = true
       /\ Forall (fun w => is_word w = true) args.
Proof.
  split.
  - apply (proj1 (proj2 (read_customer_input_words ascii_lower
                           (lit "  ADD Bob ")))).
    apply (reads_word (lit "  ") (lit "ADD") (lit " Bob ") [lit "Bob"]);
      try reflexivity.
    apply (reads_word (lit " ") (lit "Bob") (lit " ") []); try reflexivity.
    apply reads_blank. reflexivity.
  - apply (proj2 (proj2 (read_customer_input_words ascii_lower
                           (lit "  ADD Bob   1234567890 ")))).
    reflexivity.
Defined.

Lemma read_customer_input_join_witness :
  read_customer_input ascii_lower
    (join [32] [lit "ADD"; lit "Bob"; lit "1234567890"])
  = Ok (ascii_lower (lit "ADD"), [lit "Bob"; lit "1234567890"]).
Proof.
  apply (read_customer_input_join ascii_lower (lit "ADD")
           [lit "Bob"; lit "1234567890"]).
  - reflexivity.
  - repeat constructor.
Defined.

Lemma main_keeps_book_sound_witness :
  all_have_phone (snd (main ascii_lower true crash_inputs))
  /\ (exists msg, ValueError (lit "day is out of range for month")
                  = ValueError msg)
  /\ snd (fst (main ascii_lower true [(march_first, lit "hello")]))
     = EOFError_at_input.
Proof.
  destruct (main_keeps_book_sound ascii_lower true crash_inputs)
    as (_ & Hall & Hcrash & _).
  split; [exact Hall|]. split.
  - apply (Hcrash (ValueError (lit "day is out of range for month"))).
    reflexivity.
  - reflexivity.
Defined.

Lemma blank_line_ends_main_witness :
  main_loop ascii_lower true [(march_first, lit "   "); (march_first, lit "all")]
    bob_book []
  = ([] ++ [Prompt (lit "Enter a command: ")],
     Crashed (ValueError
       (lit "not enough values to unpack (expected at least 1, got 0)")),
     bob_book).
Proof.
  apply (blank_line_ends_main ascii_lower true march_first (lit "   ")
           [(march_first, lit "all")] bob_book []).
  reflexivity.
Defined.

Lemma close_or_exit_ends_main_witness :
  main_loop ascii_lower true
    [(march_first, lit "EXIT now"); (march_first, lit "all")] bob_book []
  = ([] ++ [Prompt (lit "Enter a command: ")] ++ [Print (lit "Good bye!")],
     Exited, bob_book).
Proof.
  apply (close_or_exit_ends_main ascii_lower true march_first
           (lit "EXIT now") (lit "EXIT") [lit "now"]
           [(march_first, lit "all")] bob_book []).
  - reflexivity.
  - right. reflexivity.
Defined.

Lemma no_contacts_text_exactly_when_witness :
  show_all_contacts [] = Ok (lit "No contacts stored.").
Proof.
  apply (proj2 (no_contacts_text_exactly_when [])). reflexivity.
Defined.

Lemma days_to_next_bounds_witness :
  0 <= days_to_next (mkdate 2026 11 3) (mkdate 1985 11 8) <= 365.
Proof.
  apply (days_to_next_bounds (mkdate 2026 11 3) (mkdate 1985 11 8));
    reflexivity.
Defined.
